(** * Microblog: social graph, messaging, notifications and task tracking

    A shallow embedding of [app/main/routes.py].  The persistent store
    (the database behind [db.session]) is an explicit record that every
    view function takes and returns; the response of a view is a value
    of [Response].  Clock readings ([datetime.now(timezone.utc)]) are
    explicit arguments, and the external collaborators (language
    detector, translation service, search index, configuration) are
    section variables.

    The model methods called by the views ([User.follow],
    [User.add_notification], ...) live in [app/models.py]; their
    definitions below follow the specification and say so. *)

From Stdlib Require Import ZArith List Ascii String Bool Lia.
From Stdlib Require Import Sorting.Sorted Sorting.Permutation.
Import ListNotations.
Open Scope Z_scope.

(** ** Data model *)

(** Timestamps are clock readings counted in ticks. *)
Definition Time := Z.

Record User := mkUser {
  user_id : Z;
  username : string;
  about_me : string;
  last_seen : Time;
  last_message_read_time : Time
}.

Record Post := mkPost {
  post_id : Z;
  post_author : Z;
  post_body : string;
  post_language : string;
  post_timestamp : Time
}.

Record Message := mkMessage {
  message_id : Z;
  message_sender : Z;
  message_recipient : Z;
  message_body : string;
  message_timestamp : Time
}.

(** The JSON payload of a notification. *)
Inductive Payload :=
| PCount (n : Z)
| PStarted (description : string) (progress : Z)
| PProgress (current total : Z)
| PResult (result : string).

Record Notification := mkNotification {
  notification_id : Z;
  notification_owner : Z;
  notification_name : string;
  notification_data : Payload;
  notification_timestamp : Time
}.

Record Task := mkTask {
  task_id : Z;
  task_owner : Z;
  task_name : string;
  task_description : string;
  task_complete : bool;
  task_result : option string
}.

(** The tables of the database.  [followers_table] is the association
    table of the follow relation, one row [(follower, followed)] per
    edge. *)
Record Store := mkStore {
  user_table : list User;
  followers_table : list (Z * Z);
  post_table : list Post;
  message_table : list Message;
  notification_table : list Notification;
  task_table : list Task
}.

Definition set_users (st : Store) (us : list User) : Store :=
  mkStore us (followers_table st) (post_table st)
          (message_table st) (notification_table st) (task_table st).
Definition set_followers (st : Store) (es : list (Z * Z)) : Store :=
  mkStore (user_table st) es (post_table st)
          (message_table st) (notification_table st) (task_table st).
Definition set_posts (st : Store) (ps : list Post) : Store :=
  mkStore (user_table st) (followers_table st) ps
          (message_table st) (notification_table st) (task_table st).
Definition set_messages (st : Store) (ms : list Message) : Store :=
  mkStore (user_table st) (followers_table st) (post_table st)
          ms (notification_table st) (task_table st).
Definition set_notifications (st : Store) (ns : list Notification) : Store :=
  mkStore (user_table st) (followers_table st) (post_table st)
          (message_table st) ns (task_table st).
Definition set_tasks (st : Store) (ts : list Task) : Store :=
  mkStore (user_table st) (followers_table st) (post_table st)
          (message_table st) (notification_table st) ts.

(** ** Responses *)

Inductive Endpoint :=
| EpIndex
| EpExplore
| EpUser (name : string)
| EpEditProfile
| EpLogin
| EpSelf.

Inductive Flash :=
| FlashPostLive
| FlashChangesSaved
| FlashUserNotFound (name : string)
| FlashCannotFollowYourself
| FlashFollowing (name : string)
| FlashCannotUnfollowYourself
| FlashNotFollowing (name : string)
| FlashMessageSent
| FlashExportInProgress
| FlashStamp
| FlashLoginRequired.

Record Page (A : Type) := mkPage {
  items : list A;
  has_next : bool;
  has_prev : bool
}.
Arguments mkPage {A} _ _ _.
Arguments items {A} _.
Arguments has_next {A} _.
Arguments has_prev {A} _.

Inductive Response :=
| Redirect (flashed : option Flash) (target : Endpoint)
| RenderPosts (page : Page Post)
| RenderMessages (page : Page Message)
| RenderUser (u : User) (page : Page Post)
| RenderPopup (u : User)
| RenderForm
| Json (rows : list (string * Payload * Time))
| JsonText (text : string)
| SendFile
| Abort404.

(** The error taxonomy of the specification, read off the response:
    the views report these conditions by flashing a message and
    redirecting, or by aborting with 404. *)
Inductive Error := InvalidOperation | NotFound | TaskAlreadyActive.

Definition error_of (r : Response) : option Error :=
  match r with
  | Redirect (Some FlashCannotFollowYourself) _ => Some InvalidOperation
  | Redirect (Some FlashCannotUnfollowYourself) _ => Some InvalidOperation
  | Redirect (Some (FlashUserNotFound _)) _ => Some NotFound
  | Redirect (Some FlashExportInProgress) _ => Some TaskAlreadyActive
  | Abort404 => Some NotFound
  | _ => None
  end.

(** ** Queries on the user table *)

(** [sa.select(User).where(User.username == username)], first row. *)
Definition find_user_by_username (st : Store) (name : string) : option User :=
  find (fun u => String.eqb (username u) name) (user_table st).

(** The row with a given primary key. *)
Definition get_user (st : Store) (uid : Z) : option User :=
  find (fun u => user_id u =? uid) (user_table st).

(** Attribute assignment on the row with primary key [uid]. *)
Definition update_user (st : Store) (uid : Z) (f : User -> User) : Store :=
  set_users st (map (fun u => if user_id u =? uid then f u else u) (user_table st)).

(** ** Social graph *)

Definition edge_eqb (e1 e2 : Z * Z) : bool :=
  (fst e1 =? fst e2) && (snd e1 =? snd e2).

Definition edge_eq_dec (e1 e2 : Z * Z) : {e1 = e2} + {e1 <> e2}.
Proof. decide equality; apply Z.eq_dec. Defined.

(** Modelled from the spec: [User.is_following] of app/models.py,
    [isFollowing(a, b) -> bool]. *)
Definition is_following (st : Store) (a b : Z) : bool :=
  existsb (edge_eqb (a, b)) (followers_table st).

(** Modelled from the spec: [User.follow] of app/models.py; a no-op if
    the edge already exists, otherwise creates the edge. *)
Definition user_follow (st : Store) (a b : Z) : Store :=
  if is_following st a b then st
  else set_followers st (followers_table st ++ [(a, b)]).

(** Modelled from the spec: [User.unfollow] of app/models.py; a no-op
    if the edge is absent, otherwise removes the edge. *)
Definition user_unfollow (st : Store) (a b : Z) : Store :=
  if is_following st a b
  then set_followers st (filter (fun e => negb (edge_eqb (a, b) e)) (followers_table st))
  else st.

(** Modelled from the spec: [followedFeedAuthors(user)], the user plus
    everyone the user follows. *)
Definition followed_feed_authors (st : Store) (u : Z) : list Z :=
  u :: map snd (filter (fun e => fst e =? u) (followers_table st)).

(** [follow(username)], routes.py lines 152-169. *)
Definition follow (st : Store) (current_user : Z) (name : string)
    (validate_on_submit : bool) : Store * Response :=
  if validate_on_submit then
    match find_user_by_username st name with
    | None => (st, Redirect (Some (FlashUserNotFound name)) EpIndex)
    | Some user =>
        if user_id user =? current_user
        then (st, Redirect (Some FlashCannotFollowYourself) (EpUser name))
        else (user_follow st current_user (user_id user),
              Redirect (Some (FlashFollowing name)) (EpUser name))
    end
  else (st, Redirect None EpIndex).

(** [unfollow(username)], routes.py lines 172-189. *)
Definition unfollow (st : Store) (current_user : Z) (name : string)
    (validate_on_submit : bool) : Store * Response :=
  if validate_on_submit then
    match find_user_by_username st name with
    | None => (st, Redirect (Some (FlashUserNotFound name)) EpIndex)
    | Some user =>
        if user_id user =? current_user
        then (st, Redirect (Some FlashCannotUnfollowYourself) (EpUser name))
        else (user_unfollow st current_user (user_id user),
              Redirect (Some (FlashNotFollowing name)) (EpUser name))
    end
  else (st, Redirect None EpIndex).

(** ** Ordering and pagination *)

(** [ORDER BY]: insertion into an ordered list, by a boolean
    comparison. *)
Fixpoint insert_by {A : Type} (leb : A -> A -> bool) (x : A) (l : list A) : list A :=
  match l with
  | [] => [x]
  | y :: l' => if leb x y then x :: l else y :: insert_by leb x l'
  end.

Definition order_by {A : Type} (leb : A -> A -> bool) (l : list A) : list A :=
  fold_right (insert_by leb) [] l.

(** [Post.timestamp.desc()]. *)
Definition post_timestamp_desc (p q : Post) : bool :=
  post_timestamp q <=? post_timestamp p.

(** [Message.timestamp.desc()]. *)
Definition message_timestamp_desc (m n : Message) : bool :=
  message_timestamp n <=? message_timestamp m.

(** [Notification.timestamp.asc()]. *)
Definition notification_timestamp_asc (n m : Notification) : bool :=
  notification_timestamp n <=? notification_timestamp m.

(** Creation timestamp descending, ties broken by the higher identifier
    first (the order of the home feed in the specification). *)
Definition feed_order (p q : Post) : bool :=
  (post_timestamp q <? post_timestamp p)
  || ((post_timestamp q =? post_timestamp p) && (post_id q <=? post_id p)).

(** The order of the home feed, as a relation. *)
Definition newer_first (p q : Post) : Prop :=
  post_timestamp q < post_timestamp p \/
  (post_timestamp q = post_timestamp p /\ post_id q <= post_id p).

Definition post_eq_dec (p q : Post) : {p = q} + {p <> q}.
Proof. decide equality; auto using Z.eq_dec, string_dec. Defined.

(** [db.paginate(query, page=page, per_page=per_page, error_out=False)]
    of Flask-SQLAlchemy: offset-based; with [error_out=False] a page
    below 1 becomes page 1 and a page size below 1 becomes 20. *)
Definition paginate {A : Type} (query : list A) (page per_page : Z) : Page A :=
  let page := if page <? 1 then 1 else page in
  let per_page := if per_page <? 1 then 20 else per_page in
  mkPage
    (firstn (Z.to_nat per_page) (skipn (Z.to_nat ((page - 1) * per_page)) query))
    (page * per_page <? Z.of_nat (List.length query))
    (1 <? page).

(** The primary key given to a new row of an append-only table. *)
Definition next_id {A : Type} (table : list A) : Z :=
  Z.of_nat (List.length table) + 1.

(** ** Notification stream *)

Definition owned_by (owner : Z) (n : Notification) : bool :=
  notification_owner n =? owner.

(** The least timestamp that is at least [now] and strictly greater
    than every timestamp in [ts]. *)
Definition timestamp_after (ts : list Time) (now : Time) : Time :=
  fold_right (fun t acc => Z.max (t + 1) acc) now ts.

(** Modelled from the spec: [User.add_notification] of app/models.py,
    [publish(owner, name, payload)]: appends a notification whose
    timestamp is strictly greater than the maximum existing timestamp
    of that owner, taking [max(now, lastTimestamp + epsilon)] with
    epsilon one tick. *)
Definition add_notification (st : Store) (owner : Z) (name : string)
    (data : Payload) (now : Time) : Store :=
  let ts := map notification_timestamp
                (filter (owned_by owner) (notification_table st)) in
  set_notifications st
    (notification_table st ++
     [mkNotification (next_id (notification_table st)) owner name data
                     (timestamp_after ts now)]).

(** The query of the [notifications] view, routes.py lines 283-287:
    the notifications of the user with a timestamp above [since],
    ascending. *)
Definition notifications_since (st : Store) (owner : Z) (since : Time) : list Notification :=
  order_by notification_timestamp_asc
    (filter (fun n => owned_by owner n && (since <? notification_timestamp n))
            (notification_table st)).

(** ** Messaging channel *)

Definition is_unread (user : User) (m : Message) : bool :=
  (message_recipient m =? user_id user)
  && (last_message_read_time user <? message_timestamp m).

(** Modelled from the spec: [User.unread_message_count] of
    app/models.py, the count of messages where the recipient is the
    user and the timestamp is above the user's watermark. *)
Definition unread_message_count (st : Store) (user : User) : Z :=
  Z.of_nat (List.length (filter (is_unread user) (message_table st))).

(** [current_user.messages_received.select()]. *)
Definition messages_received (st : Store) (uid : Z) : list Message :=
  filter (fun m => message_recipient m =? uid) (message_table st).

Definition set_last_message_read_time (now : Time) (u : User) : User :=
  mkUser (user_id u) (username u) (about_me u) (last_seen u) now.

Definition set_last_seen (now : Time) (u : User) : User :=
  mkUser (user_id u) (username u) (about_me u) now (last_message_read_time u).

Definition set_profile (name about : string) (u : User) : User :=
  mkUser (user_id u) name about (last_seen u) (last_message_read_time u).

(** ** Task tracker *)

Definition is_active (owner : Z) (name : string) (t : Task) : bool :=
  (task_owner t =? owner) && String.eqb (task_name t) name && negb (task_complete t).

(** Modelled from the spec: [User.get_task_in_progress] of
    app/models.py, [inProgress(user, type)]: the active (non-complete)
    task of that type, if any. *)
Definition get_task_in_progress (st : Store) (owner : Z) (name : string) : option Task :=
  find (is_active owner name) (task_table st).

(** Modelled from the spec: [User.launch_task] of app/models.py, the
    creating half of [launch]: creates the task record and publishes
    the initial notification (description, progress 0). *)
Definition launch_task (st : Store) (owner : Z) (name description : string)
    (now : Time) : Store :=
  let t := mkTask (next_id (task_table st)) owner name description false None in
  add_notification (set_tasks st (task_table st ++ [t]))
                   owner name (PStarted description 0) now.

(** Modelled from the spec: [reportProgress(task, current, total)],
    called by the background worker: publishes a notification under
    the task's type name and leaves the completion state alone. *)
Definition report_progress (st : Store) (t : Task) (current total : Z)
    (now : Time) : Store :=
  add_notification st (task_owner t) (task_name t) (PProgress current total) now.

Definition mark_complete (result : string) (t : Task) : Task :=
  mkTask (task_id t) (task_owner t) (task_name t) (task_description t)
         true (Some result).

(** Modelled from the spec: [complete(task, result)], called by the
    background worker: marks the task complete, stores the result and
    publishes a final notification. *)
Definition complete (st : Store) (t : Task) (result : string) (now : Time) : Store :=
  let ts := map (fun t' => if task_id t' =? task_id t then mark_complete result t' else t')
                (task_table st) in
  add_notification (set_tasks st ts) (task_owner t) (task_name t) (PResult result) now.

(** ** Post ledger and feed *)

(** Modelled from the spec: [User.following_posts] of app/models.py,
    the query of [homeFeed]: the posts whose author is in
    [followedFeedAuthors(user)], newest first, ties broken by the
    higher identifier. *)
Definition following_posts (st : Store) (u : Z) : list Post :=
  order_by feed_order
    (filter (fun p => existsb (Z.eqb (post_author p)) (followed_feed_authors st u))
            (post_table st)).

(** ** The views of routes.py *)

(** The outcome of [langdetect.detect]. *)
Inductive Detection := Detected (language : string) | LangDetectException.

(** What a request to [/stamp] carries. *)
Inductive Upload :=
| NoUpload
| NoFilePart
| NoSelectedFile
| UploadedFile (stamped : bool).

Section Views.

(** The external collaborators and the configuration. *)
Variable detect : string -> Detection.
Variable translate : string -> string -> string -> string.
Variable post_search : Store -> string -> Z -> Z -> list Post * Z.
Variable POSTS_PER_PAGE : Z.

(** [before_request], lines 36-42.  [current_user] is [Some uid] for
    an authenticated user; the search form and the locale are
    request-local and not part of the store. *)
Definition before_request (st : Store) (current_user : option Z) (now : Time) : Store :=
  match current_user with
  | Some uid => update_user st uid (set_last_seen now)
  | None => st
  end.

Definition current_username (st : Store) (current_user : Z) : string :=
  match get_user st current_user with
  | Some u => username u
  | None => EmptyString
  end.

(** [index], lines 45-76.  [submitted] is [Some body] when
    [form.validate_on_submit()] holds. *)
Definition index (st : Store) (current_user : Z) (submitted : option string)
    (page : Z) (now : Time) : Store * Response :=
  match submitted with
  | Some body =>
      let language :=
        match detect body with
        | Detected l => l
        | LangDetectException => EmptyString
        end in
      let post := mkPost (next_id (post_table st)) current_user body language now in
      (set_posts st (post_table st ++ [post]), Redirect (Some FlashPostLive) EpIndex)
  | None =>
      (st, RenderPosts (paginate (following_posts st current_user) page POSTS_PER_PAGE))
  end.

(** [explore], lines 79-95. *)
Definition explore (st : Store) (page : Z) : Store * Response :=
  (st, RenderPosts (paginate (order_by post_timestamp_desc (post_table st))
                             page POSTS_PER_PAGE)).

(** [user], lines 98-125. *)
Definition user (st : Store) (name : string) (page : Z) : Store * Response :=
  match find_user_by_username st name with
  | None => (st, Abort404)
  | Some u =>
      let query := order_by post_timestamp_desc
                     (filter (fun p => post_author p =? user_id u) (post_table st)) in
      (st, RenderUser u (paginate query page POSTS_PER_PAGE))
  end.

(** [user_popup], lines 128-133. *)
Definition user_popup (st : Store) (name : string) : Store * Response :=
  match find_user_by_username st name with
  | None => (st, Abort404)
  | Some u => (st, RenderPopup u)
  end.

(** [edit_profile], lines 136-149.  [submitted] is
    [Some (username, about_me)] when the form validates. *)
Definition edit_profile (st : Store) (current_user : Z)
    (submitted : option (string * string)) : Store * Response :=
  match submitted with
  | Some (name, about) =>
      (update_user st current_user (set_profile name about),
       Redirect (Some FlashChangesSaved) EpEditProfile)
  | None => (st, RenderForm)
  end.

(** [translate_text], lines 192-198. *)
Definition translate_text (st : Store) (text source dest : string) : Store * Response :=
  (st, JsonText (translate text source dest)).

(** [search], lines 201-226.  [q] is [Some query] when the search
    form validates. *)
Definition search (st : Store) (q : option string) (page : Z) : Store * Response :=
  match q with
  | None => (st, Redirect None EpExplore)
  | Some query =>
      let '(found, total) := post_search st query page POSTS_PER_PAGE in
      (st, RenderPosts (mkPage found (page * POSTS_PER_PAGE <? total) (1 <? page)))
  end.

(** [send_message], lines 229-243.  The message is added to the
    session before the unread count is queried, so the count sees
    it. *)
Definition send_message (st : Store) (current_user : Z) (recipient : string)
    (submitted : option string) (now : Time) : Store * Response :=
  match find_user_by_username st recipient with
  | None => (st, Abort404)
  | Some user =>
      match submitted with
      | Some body =>
          let msg := mkMessage (next_id (message_table st)) current_user
                               (user_id user) body now in
          let st1 := set_messages st (message_table st ++ [msg]) in
          let st2 := add_notification st1 (user_id user) "unread_message_count"
                       (PCount (unread_message_count st1 user)) now in
          (st2, Redirect (Some FlashMessageSent) (EpUser recipient))
      | None => (st, RenderForm)
      end
  end.

(** [messages], lines 246-265. *)
Definition messages (st : Store) (current_user : Z) (page : Z) (now : Time)
    : Store * Response :=
  let st1 := update_user st current_user (set_last_message_read_time now) in
  let st2 := add_notification st1 current_user "unread_message_count" (PCount 0) now in
  let query := order_by message_timestamp_desc (messages_received st2 current_user) in
  (st2, RenderMessages (paginate query page POSTS_PER_PAGE)).

(** [export_posts], lines 268-276. *)
Definition export_posts (st : Store) (current_user : Z) (now : Time) : Store * Response :=
  match get_task_in_progress st current_user "export_posts" with
  | Some _ =>
      (st, Redirect (Some FlashExportInProgress)
                    (EpUser (current_username st current_user)))
  | None =>
      let st1 := launch_task st current_user "export_posts" "Exporting posts..." now in
      (st1, Redirect None (EpUser (current_username st1 current_user)))
  end.

(** [notifications], lines 279-292. *)
Definition notifications (st : Store) (current_user : Z) (since : Time)
    : Store * Response :=
  (st, Json (map (fun n => (notification_name n, notification_data n,
                            notification_timestamp n))
                 (notifications_since st current_user since))).

(** [stamp], lines 382-412; it works on temporary files only. *)
Definition stamp (st : Store) (upload : Upload) : Store * Response :=
  match upload with
  | NoUpload => (st, RenderForm)
  | NoFilePart => (st, Redirect (Some FlashStamp) EpSelf)
  | NoSelectedFile => (st, Redirect (Some FlashStamp) EpSelf)
  | UploadedFile true => (st, SendFile)
  | UploadedFile false => (st, Redirect (Some FlashStamp) EpSelf)
  end.

(** A request: the route it addresses and what it carries. *)
Inductive Request :=
| ReqIndex (submitted : option string) (page : Z)
| ReqExplore (page : Z)
| ReqUser (name : string) (page : Z)
| ReqUserPopup (name : string)
| ReqEditProfile (submitted : option (string * string))
| ReqFollow (name : string) (validate_on_submit : bool)
| ReqUnfollow (name : string) (validate_on_submit : bool)
| ReqTranslate (text source dest : string)
| ReqSearch (q : option string) (page : Z)
| ReqSendMessage (recipient : string) (submitted : option string)
| ReqMessages (page : Z)
| ReqExportPosts
| ReqNotifications (since : Time)
| ReqStamp (upload : Upload).

(** The view a request is routed to, run for the authenticated user
    [uid]. *)
Definition view (st : Store) (uid : Z) (req : Request) (now : Time) : Store * Response :=
  match req with
  | ReqIndex submitted page => index st uid submitted page now
  | ReqExplore page => explore st page
  | ReqUser name page => user st name page
  | ReqUserPopup name => user_popup st name
  | ReqEditProfile submitted => edit_profile st uid submitted
  | ReqFollow name v => follow st uid name v
  | ReqUnfollow name v => unfollow st uid name v
  | ReqTranslate text source dest => translate_text st text source dest
  | ReqSearch q page => search st q page
  | ReqSendMessage recipient submitted => send_message st uid recipient submitted now
  | ReqMessages page => messages st uid page now
  | ReqExportPosts => export_posts st uid now
  | ReqNotifications since => notifications st uid since
  | ReqStamp upload => stamp st upload
  end.

(** One request: [before_request] first, at clock reading [now0],
    then the view, at clock reading [now].  Every view but [stamp] is
    [login_required]: for an anonymous client the view is not run,
    the login message is flashed and the client is redirected to the
    login page. *)
Definition handle_request (st : Store) (current_user : option Z) (req : Request)
    (now0 now : Time) : Store * Response :=
  let st0 := before_request st current_user now0 in
  match current_user, req with
  | Some uid, _ => view st0 uid req now
  | None, ReqStamp upload => stamp st0 upload
  | None, _ => (st0, Redirect (Some FlashLoginRequired) EpLogin)
  end.

End Views.

(** ** Scenarios *)

(** Publishing a sequence of notifications for one owner in immediate
    succession; each event carries its name, payload and the clock
    reading at which it is published. *)
Fixpoint publish_all (st : Store) (owner : Z)
    (events : list (string * Payload * Time)) : Store :=
  match events with
  | [] => st
  | (name, data, now) :: rest =>
      publish_all (add_notification st owner name data now) owner rest
  end.

(** A small store: four users, alice following bob and carol, one
    post by each user, and one message from bob to alice. *)
Definition alice : User := mkUser 1 "alice" "" 0 5.
Definition bob : User := mkUser 2 "bob" "" 0 0.
Definition carol : User := mkUser 3 "carol" "" 0 0.
Definition dave : User := mkUser 4 "dave" "" 0 0.

Definition demo_store : Store :=
  mkStore [alice; bob; carol; dave]
          [(1, 2); (1, 3)]
          [mkPost 1 1 "hello" "en" 10; mkPost 2 2 "hola" "es" 20;
           mkPost 3 3 "salut" "fr" 20; mkPost 4 4 "hallo" "de" 30]
          [mkMessage 1 2 1 "hi alice" 7]
          [mkNotification 1 1 "unread_message_count" (PCount 1) 7]
          [].

(** What [last_seen] holds for each user, by primary key. *)
Definition last_seen_view (st : Store) : list (Z * Time) :=
  map (fun u => (user_id u, last_seen u)) (user_table st).

(** Collaborators for the demo store: a detector that recognises
    nothing, an identity translation and an empty search index. *)
Definition detect_nothing (body : string) : Detection := LangDetectException.
Definition translate_id (text source dest : string) : string := text.
Definition search_nothing (st : Store) (q : string) (page per_page : Z)
    : list Post * Z := ([], 0).

(** ** Upload file names *)

(** [ALLOWED_EXTENSIONS], line 28. *)
Definition ALLOWED_EXTENSIONS : list string :=
  ["pdf"%string; "txt"%string; "docx"%string; "jpg"%string].

(** ["." in filename]. *)
Fixpoint contains_dot (s : string) : bool :=
  match s with
  | EmptyString => false
  | String c s' => Ascii.eqb c "."%char || contains_dot s'
  end.

(** [filename.rsplit(".", 1)]: the text before and after the last dot,
    or [None] when there is no dot (Python then returns a list of
    length one). *)
Fixpoint rsplit_dot (s : string) : option (string * string) :=
  match s with
  | EmptyString => None
  | String c s' =>
      match rsplit_dot s' with
      | Some (before, after) => Some (String c before, after)
      | None => if Ascii.eqb c "."%char then Some (EmptyString, s') else None
      end
  end.

(** [str.lower] on the letters A-Z; other characters are kept. *)
Definition lower_ascii (c : Ascii.ascii) : Ascii.ascii :=
  let n := Ascii.nat_of_ascii c in
  if ((65 <=? n) && (n <=? 90))%nat then Ascii.ascii_of_nat (n + 32) else c.

Fixpoint lower (s : string) : string :=
  match s with
  | EmptyString => EmptyString
  | String c s' => String (lower_ascii c) (lower s')
  end.

(** [allowed_file], lines 32-33.  The [and] short-circuits, so the
    index [1] is only taken when there is a dot. *)
Definition allowed_file (filename : string) : bool :=
  contains_dot filename &&
  match rsplit_dot filename with
  | Some (_, extension) => existsb (String.eqb (lower extension)) ALLOWED_EXTENSIONS
  | None => false
  end.

(** ** Invariants and request classes *)

(** No follow edge from a user to themselves. *)
Definition no_self_follow (st : Store) : Prop :=
  forall a, ~ In (a, a) (followers_table st).

(** At most one non-complete task per user and task type. *)
Definition one_active_task (st : Store) : Prop :=
  forall owner name,
    (List.length (filter (is_active owner name) (task_table st)) <= 1)%nat.

(** [table'] is [table] with at most one row appended. *)
Definition grows_by_one {A : Type} (table table' : list A) : Prop :=
  exists rows, table' = table ++ rows /\ (List.length rows <= 1)%nat.

(** The requests whose view only reads: the plain page views, and the
    form views when nothing valid is submitted. *)
Definition read_only (req : Request) : bool :=
  match req with
  | ReqIndex None _ => true
  | ReqExplore _ => true
  | ReqUser _ _ => true
  | ReqUserPopup _ => true
  | ReqEditProfile None => true
  | ReqFollow _ false => true
  | ReqUnfollow _ false => true
  | ReqTranslate _ _ _ => true
  | ReqSearch _ _ => true
  | ReqSendMessage _ None => true
  | ReqNotifications _ => true
  | ReqStamp _ => true
  | _ => false
  end.

(** * Properties *)

(** ** Social graph *)

Lemma edge_eqb_eq (e1 e2 : Z * Z) : edge_eqb e1 e2 = true <-> e1 = e2.
Proof.
  destruct e1 as [a b], e2 as [c d]; unfold edge_eqb; simpl.
  rewrite andb_true_iff, !Z.eqb_eq.
  split; [intros [-> ->]; reflexivity | intros H; inversion H; auto].
Qed.

Lemma edge_eqb_refl (e : Z * Z) : edge_eqb e e = true.
Proof. apply edge_eqb_eq; reflexivity. Qed.

Lemma is_following_In (st : Store) (a b : Z) :
  is_following st a b = true <-> In (a, b) (followers_table st).
Proof.
  unfold is_following. rewrite existsb_exists. split.
  - intros [e [Hin He]]. apply edge_eqb_eq in He. now subst e.
  - intros Hin. exists (a, b). split; [assumption | apply edge_eqb_refl].
Qed.

Lemma is_following_count (st : Store) (a b : Z) :
  is_following st a b = false <->
  count_occ edge_eq_dec (followers_table st) (a, b) = 0%nat.
Proof.
  rewrite <- count_occ_not_In, <- is_following_In.
  destruct (is_following st a b); split; congruence.
Qed.

Lemma count_occ_remove_edge (e e' : Z * Z) (l : list (Z * Z)) :
  count_occ edge_eq_dec (filter (fun x => negb (edge_eqb e x)) l) e' =
  if edge_eq_dec e e' then 0%nat else count_occ edge_eq_dec l e'.
Proof.
  induction l as [|x l IH]; simpl.
  - now destruct (edge_eq_dec e e').
  - destruct (edge_eqb e x) eqn:Hx; simpl.
    + apply edge_eqb_eq in Hx; subst x. rewrite IH.
      destruct (edge_eq_dec e e'); reflexivity.
    + assert (e <> x) by (intros ->; rewrite edge_eqb_refl in Hx; discriminate).
      rewrite IH.
      destruct (edge_eq_dec x e'), (edge_eq_dec e e'); congruence.
Qed.

Lemma user_follow_count (st : Store) (a b : Z) (e : Z * Z) :
  count_occ edge_eq_dec (followers_table (user_follow st a b)) e =
  if edge_eq_dec (a, b) e
  then Nat.max 1 (count_occ edge_eq_dec (followers_table st) e)
  else count_occ edge_eq_dec (followers_table st) e.
Proof.
  unfold user_follow. destruct (is_following st a b) eqn:Hf.
  - destruct (edge_eq_dec (a, b) e) as [<-|]; [|reflexivity].
    apply is_following_In in Hf.
    apply (count_occ_In edge_eq_dec) in Hf. lia.
  - cbn [followers_table set_followers]. rewrite count_occ_app. cbn [count_occ].
    destruct (edge_eq_dec (a, b) e) as [<-|]; [|lia].
    apply is_following_count in Hf. rewrite Hf. reflexivity.
Qed.

Lemma user_unfollow_count (st : Store) (a b : Z) (e : Z * Z) :
  count_occ edge_eq_dec (followers_table (user_unfollow st a b)) e =
  if edge_eq_dec (a, b) e then 0%nat
  else count_occ edge_eq_dec (followers_table st) e.
Proof.
  unfold user_unfollow. destruct (is_following st a b) eqn:Hf.
  - cbn [followers_table set_followers]. apply count_occ_remove_edge.
  - destruct (edge_eq_dec (a, b) e) as [<-|]; [|reflexivity].
    now apply is_following_count.
Qed.

Lemma user_follow_users (st : Store) (a b : Z) :
  user_table (user_follow st a b) = user_table st.
Proof. unfold user_follow. now destruct (is_following st a b). Qed.

Lemma user_unfollow_users (st : Store) (a b : Z) :
  user_table (user_unfollow st a b) = user_table st.
Proof. unfold user_unfollow. now destruct (is_following st a b). Qed.

Lemma user_follow_again (st : Store) (a b : Z) :
  user_follow (user_follow st a b) a b = user_follow st a b.
Proof.
  unfold user_follow at 1.
  assert (H : is_following (user_follow st a b) a b = true); [|now rewrite H].
  apply is_following_In. unfold user_follow.
  destruct (is_following st a b) eqn:Hf.
  - now apply is_following_In.
  - simpl. apply in_or_app. right. now left.
Qed.

Lemma user_unfollow_absent (st : Store) (a b : Z) :
  is_following st a b = false -> user_unfollow st a b = st.
Proof. unfold user_unfollow. now intros ->. Qed.

Lemma user_unfollow_not_following (st : Store) (a b : Z) :
  is_following (user_unfollow st a b) a b = false.
Proof.
  apply is_following_count. rewrite user_unfollow_count.
  now destruct (edge_eq_dec (a, b) (a, b)).
Qed.

(** Both graph mutations keep the follow table free of duplicate
    rows. *)
Lemma user_follow_NoDup (st : Store) (a b : Z) :
  NoDup (followers_table st) -> NoDup (followers_table (user_follow st a b)).
Proof.
  rewrite !(NoDup_count_occ edge_eq_dec). intros H e.
  rewrite user_follow_count. specialize (H e).
  destruct (edge_eq_dec (a, b) e); lia.
Qed.

Lemma user_unfollow_NoDup (st : Store) (a b : Z) :
  NoDup (followers_table st) -> NoDup (followers_table (user_unfollow st a b)).
Proof.
  rewrite !(NoDup_count_occ edge_eq_dec). intros H e.
  rewrite user_unfollow_count. specialize (H e).
  destruct (edge_eq_dec (a, b) e); lia.
Qed.

Lemma follow_keeps_lookup (st : Store) (a : Z) (name : string) (v : bool) (n : string) :
  find_user_by_username (fst (follow st a name v)) n = find_user_by_username st n.
Proof.
  unfold follow, find_user_by_username.
  destruct v; [|reflexivity].
  destruct (find _ (user_table st)) as [u|]; [|reflexivity].
  destruct (user_id u =? a); [reflexivity|].
  cbn [fst]. now rewrite user_follow_users.
Qed.

Lemma unfollow_keeps_lookup (st : Store) (a : Z) (name : string) (v : bool) (n : string) :
  find_user_by_username (fst (unfollow st a name v)) n = find_user_by_username st n.
Proof.
  unfold unfollow, find_user_by_username.
  destruct v; [|reflexivity].
  destruct (find _ (user_table st)) as [u|]; [|reflexivity].
  destruct (user_id u =? a); [reflexivity|].
  cbn [fst]. now rewrite user_unfollow_users.
Qed.

Lemma follow_other (st : Store) (a : Z) (name : string) (ub : User) :
  find_user_by_username st name = Some ub ->
  a <> user_id ub ->
  follow st a name true =
  (user_follow st a (user_id ub), Redirect (Some (FlashFollowing name)) (EpUser name)).
Proof.
  intros Hfind Hne. unfold follow. rewrite Hfind.
  destruct (user_id ub =? a) eqn:E; [apply Z.eqb_eq in E; congruence | reflexivity].
Qed.

Lemma unfollow_other (st : Store) (a : Z) (name : string) (ub : User) :
  find_user_by_username st name = Some ub ->
  a <> user_id ub ->
  unfollow st a name true =
  (user_unfollow st a (user_id ub), Redirect (Some (FlashNotFollowing name)) (EpUser name)).
Proof.
  intros Hfind Hne. unfold unfollow. rewrite Hfind.
  destruct (user_id ub =? a) eqn:E; [apply Z.eqb_eq in E; congruence | reflexivity].
Qed.

(** C6: for users a and b with a different from b, following b twice
    succeeds both times and leaves exactly one edge (a, b), the second
    call changing nothing; unfollowing then removes that edge, and
    unfollowing once more, with the edge absent, succeeds and changes
    nothing.  No other edge is touched. *)
Theorem follow_twice_one_edge_then_unfollow
    (st : Store) (a : Z) (name : string) (ub : User) :
  find_user_by_username st name = Some ub ->
  a <> user_id ub ->
  NoDup (followers_table st) ->
  let edge := (a, user_id ub) in
  let r1 := follow st a name true in
  let r2 := follow (fst r1) a name true in
  let r3 := unfollow (fst r2) a name true in
  let r4 := unfollow (fst r3) a name true in
  (snd r1 = Redirect (Some (FlashFollowing name)) (EpUser name) /\
   snd r2 = Redirect (Some (FlashFollowing name)) (EpUser name) /\
   fst r2 = fst r1 /\
   count_occ edge_eq_dec (followers_table (fst r2)) edge = 1%nat) /\
  (snd r3 = Redirect (Some (FlashNotFollowing name)) (EpUser name) /\
   count_occ edge_eq_dec (followers_table (fst r3)) edge = 0%nat) /\
  (snd r4 = Redirect (Some (FlashNotFollowing name)) (EpUser name) /\
   fst r4 = fst r3) /\
  (forall e, e <> edge ->
     count_occ edge_eq_dec (followers_table (fst r2)) e =
       count_occ edge_eq_dec (followers_table st) e /\
     count_occ edge_eq_dec (followers_table (fst r3)) e =
       count_occ edge_eq_dec (followers_table st) e).
Proof.
  intros Hfind Hne Hnd edge r1 r2 r3 r4.
  assert (E1 : r1 = (user_follow st a (user_id ub),
                     Redirect (Some (FlashFollowing name)) (EpUser name)))
    by (apply follow_other; assumption).
  assert (E2 : r2 = (user_follow st a (user_id ub),
                     Redirect (Some (FlashFollowing name)) (EpUser name))).
  { unfold r2. rewrite (follow_other (fst r1) a name ub); auto.
    - rewrite E1. cbn [fst]. now rewrite user_follow_again.
    - unfold r1. now rewrite follow_keeps_lookup. }
  assert (E3 : r3 = (user_unfollow (user_follow st a (user_id ub)) a (user_id ub),
                     Redirect (Some (FlashNotFollowing name)) (EpUser name))).
  { unfold r3. rewrite (unfollow_other (fst r2) a name ub); auto.
    - now rewrite E2.
    - unfold r2, r1. now rewrite !follow_keeps_lookup. }
  assert (E4 : r4 = r3).
  { unfold r4. rewrite (unfollow_other (fst r3) a name ub); auto.
    - rewrite E3. cbn [fst].
      rewrite (user_unfollow_absent _ _ _ (user_unfollow_not_following _ _ _)).
      reflexivity.
    - unfold r3, r2, r1. now rewrite unfollow_keeps_lookup, !follow_keeps_lookup. }
  rewrite E4, E3, E2, E1. cbn [fst snd].
  rewrite (NoDup_count_occ edge_eq_dec) in Hnd.
  repeat split; try reflexivity.
  - rewrite user_follow_count. unfold edge.
    destruct (edge_eq_dec (a, user_id ub) (a, user_id ub)); [|congruence].
    specialize (Hnd (a, user_id ub)). lia.
  - rewrite user_unfollow_count. unfold edge.
    now destruct (edge_eq_dec (a, user_id ub) (a, user_id ub)).
  - rewrite user_follow_count.
    destruct (edge_eq_dec (a, user_id ub) e); [subst e; contradiction | reflexivity].
  - rewrite user_unfollow_count, user_follow_count.
    destruct (edge_eq_dec (a, user_id ub) e); [subst e; contradiction | reflexivity].
Qed.

(** dave follows bob twice in the demo store, then unfollows twice. *)
Lemma follow_twice_one_edge_witness :
  count_occ edge_eq_dec
    (followers_table (fst (follow (fst (follow demo_store 4 "bob" true)) 4 "bob" true)))
    (4, 2) = 1%nat.
Proof.
  refine (proj2 (proj2 (proj2 (proj1
    (follow_twice_one_edge_then_unfollow demo_store 4 "bob" bob _ _ _))))).
  - reflexivity.
  - discriminate.
  - repeat constructor; simpl; intuition discriminate.
Defined.

(** C7: a user's attempt to follow or unfollow themselves is answered
    with the invalid-operation response, and the store is returned as
    it was: no edge is created or removed and nothing else changes. *)
Theorem self_follow_unfollow_rejected
    (st : Store) (a : Z) (name : string) (u : User) :
  find_user_by_username st name = Some u ->
  user_id u = a ->
  (follow st a name true =
     (st, Redirect (Some FlashCannotFollowYourself) (EpUser name)) /\
   error_of (snd (follow st a name true)) = Some InvalidOperation) /\
  (unfollow st a name true =
     (st, Redirect (Some FlashCannotUnfollowYourself) (EpUser name)) /\
   error_of (snd (unfollow st a name true)) = Some InvalidOperation).
Proof.
  intros Hfind Hid. unfold follow, unfollow. rewrite Hfind.
  apply Z.eqb_eq in Hid. rewrite Hid. repeat split.
Qed.

Lemma self_follow_unfollow_rejected_witness :
  follow demo_store 1 "alice" true =
    (demo_store, Redirect (Some FlashCannotFollowYourself) (EpUser "alice")).
Proof.
  refine (proj1 (proj1 (self_follow_unfollow_rejected demo_store 1 "alice" alice _ _)));
    reflexivity.
Defined.

(** ** Ordering *)

Section Ordering.

Context {A : Type} (leb : A -> A -> bool).

Lemma insert_by_perm (x : A) (l : list A) :
  Permutation (insert_by leb x l) (x :: l).
Proof.
  induction l as [|y l IH]; simpl; [reflexivity|].
  destruct (leb x y); [reflexivity|].
  rewrite IH. apply perm_swap.
Qed.

Lemma order_by_perm (l : list A) : Permutation (order_by leb l) l.
Proof.
  induction l as [|x l IH]; simpl; [reflexivity|].
  rewrite insert_by_perm. now constructor.
Qed.

Lemma order_by_In (x : A) (l : list A) : In x (order_by leb l) <-> In x l.
Proof.
  split; apply Permutation_in;
    [apply order_by_perm | apply Permutation_sym, order_by_perm].
Qed.

Hypothesis leb_total : forall x y, leb x y = true \/ leb y x = true.
Hypothesis leb_trans : forall x y z, leb x y = true -> leb y z = true -> leb x z = true.

Local Abbreviation le := (fun x y : A => leb x y = true).

Lemma insert_by_sorted (x : A) (l : list A) :
  StronglySorted le l -> StronglySorted le (insert_by leb x l).
Proof.
  induction 1 as [|y l Hs IH Hall]; simpl.
  - repeat constructor.
  - destruct (leb x y) eqn:E.
    + constructor; [now constructor|].
      constructor; [exact E|].
      eapply Forall_impl; [|exact Hall]. intros z Hz. now apply (leb_trans x y z).
    + constructor; [exact IH|].
      apply (Permutation_Forall (Permutation_sym (insert_by_perm x l))).
      constructor; [|exact Hall].
      destruct (leb_total x y) as [H|H]; [congruence | exact H].
Qed.

Lemma order_by_sorted (l : list A) : StronglySorted le (order_by leb l).
Proof.
  induction l as [|x l IH]; simpl; [constructor | now apply insert_by_sorted].
Qed.

End Ordering.

Lemma StronglySorted_weaken {A : Type} (R S : A -> A -> Prop) (l : list A) :
  (forall x y, R x y -> S x y) -> StronglySorted R l -> StronglySorted S l.
Proof.
  intros HRS. induction 1 as [|x l Hs IH Hall]; constructor; [exact IH|].
  eapply Forall_impl; [|exact Hall]. intros y. apply HRS.
Qed.

Lemma notification_asc_total (n m : Notification) :
  notification_timestamp_asc n m = true \/ notification_timestamp_asc m n = true.
Proof. unfold notification_timestamp_asc. rewrite !Z.leb_le. lia. Qed.

Lemma notification_asc_trans (n m k : Notification) :
  notification_timestamp_asc n m = true -> notification_timestamp_asc m k = true ->
  notification_timestamp_asc n k = true.
Proof. unfold notification_timestamp_asc. rewrite !Z.leb_le. lia. Qed.

Lemma feed_order_total (p q : Post) :
  feed_order p q = true \/ feed_order q p = true.
Proof.
  unfold feed_order.
  rewrite !orb_true_iff, !andb_true_iff, !Z.ltb_lt, !Z.eqb_eq, !Z.leb_le. lia.
Qed.

Lemma feed_order_trans (p q r : Post) :
  feed_order p q = true -> feed_order q r = true -> feed_order p r = true.
Proof.
  unfold feed_order.
  rewrite !orb_true_iff, !andb_true_iff, !Z.ltb_lt, !Z.eqb_eq, !Z.leb_le. lia.
Qed.

(** ** Notification stream *)

Lemma timestamp_after_ge (ts : list Time) (now : Time) : now <= timestamp_after ts now.
Proof. induction ts as [|t ts IH]; simpl; lia. Qed.

Lemma timestamp_after_gt (ts : list Time) (now t : Time) :
  In t ts -> t < timestamp_after ts now.
Proof.
  induction ts as [|t' ts IH]; simpl; [easy|].
  intros [->|Hin]; [|specialize (IH Hin)]; lia.
Qed.

(** A published notification is stamped above every notification its
    owner already has. *)
Lemma add_notification_above (st : Store) (o : Z) (name : string) (data : Payload)
    (now : Time) :
  exists n,
    notification_table (add_notification st o name data now) =
      notification_table st ++ [n] /\
    notification_owner n = o /\ notification_name n = name /\
    notification_data n = data /\
    now <= notification_timestamp n /\
    forall m, In m (notification_table st) -> notification_owner m = o ->
              notification_timestamp m < notification_timestamp n.
Proof.
  eexists. split; [reflexivity|]. cbn.
  repeat split; [apply timestamp_after_ge|].
  intros m Hin Ho. apply timestamp_after_gt.
  apply in_map, filter_In. split; [exact Hin|].
  unfold owned_by. now apply Z.eqb_eq.
Qed.

Lemma publish_all_appends (o : Z) (events : list (string * Payload * Time)) :
  forall st, exists news,
    notification_table (publish_all st o events) = notification_table st ++ news /\
    map (fun n => (notification_name n, notification_data n)) news = map fst events /\
    Forall (fun n => notification_owner n = o) news /\
    StronglySorted Z.lt (map notification_timestamp news) /\
    forall m n, In m (notification_table st) -> notification_owner m = o ->
                In n news -> notification_timestamp m < notification_timestamp n.
Proof.
  induction events as [|[[name data] now] rest IH]; intros st.
  - exists []. simpl. rewrite app_nil_r. repeat split; try constructor. easy.
  - destruct (add_notification_above st o name data now)
      as (n1 & Htab & Ho & Hname & Hdata & _ & Habove).
    destruct (IH (add_notification st o name data now))
      as (news & Htab' & Hmap & Hown & Hsorted & Habove').
    exists (n1 :: news). simpl. rewrite Htab', Htab, <- app_assoc. simpl.
    repeat split.
    + now rewrite Hname, Hdata, Hmap.
    + now constructor.
    + constructor; [exact Hsorted|].
      apply Forall_forall. intros t Ht. apply in_map_iff in Ht.
      destruct Ht as (n & <- & Hn). apply Habove'; auto.
      rewrite Htab. apply in_or_app. right. now left.
    + intros m n Hm Hmo [<-|Hn]; [now apply Habove|].
      apply Habove'; auto. rewrite Htab. apply in_or_app. now left.
Qed.

(** C1: publishing N notifications for an owner in immediate
    succession, whatever the clock reads at each call, appends N
    notifications of that owner whose timestamps are strictly
    increasing and above every timestamp the owner had before; and on
    any store the notifications view leaves the store alone and
    answers with one row (name, payload, timestamp) per notification
    of a list that holds exactly the owner's notifications with a
    timestamp strictly greater than the given one, each as often as it
    is stored, in ascending timestamp order. *)
Theorem publish_increasing_since_exact
    (st : Store) (o : Z) (events : list (string * Payload * Time)) :
  (exists news,
     notification_table (publish_all st o events) = notification_table st ++ news /\
     List.length news = List.length events /\
     map (fun n => (notification_name n, notification_data n)) news = map fst events /\
     Forall (fun n => notification_owner n = o) news /\
     StronglySorted Z.lt (map notification_timestamp news) /\
     forall m n, In m (notification_table st) -> notification_owner m = o ->
                 In n news -> notification_timestamp m < notification_timestamp n) /\
  (forall (s : Store) (t : Time),
     exists result,
       notifications s o t =
         (s, Json (map (fun n => (notification_name n, notification_data n,
                                  notification_timestamp n)) result)) /\
       (forall n, In n result <->
                  In n (notification_table s) /\ notification_owner n = o /\
                  t < notification_timestamp n) /\
       Permutation result
                   (filter (fun n => (notification_owner n =? o)
                                     && (t <? notification_timestamp n))
                           (notification_table s)) /\
       StronglySorted (fun n m => notification_timestamp n <= notification_timestamp m)
                      result).
Proof.
  split.
  - destruct (publish_all_appends o events st)
      as (news & Htab & Hmap & Hown & Hsorted & Habove).
    exists news. repeat split; auto.
    apply (f_equal (@List.length _)) in Hmap. now rewrite !length_map in Hmap.
  - intros s t. exists (notifications_since s o t).
    split; [reflexivity|]. unfold notifications_since. split; [|split].
    + intros n. rewrite order_by_In, filter_In, andb_true_iff.
      unfold owned_by. rewrite Z.eqb_eq, Z.ltb_lt. tauto.
    + apply order_by_perm.
    + eapply StronglySorted_weaken;
        [|apply order_by_sorted;
          [apply notification_asc_total | apply notification_asc_trans]].
      intros n m H. now apply Z.leb_le.
Qed.

(** ** Task tracker *)

Lemma find_app {A : Type} (f : A -> bool) (l1 l2 : list A) :
  find f (l1 ++ l2) =
  match find f l1 with Some x => Some x | None => find f l2 end.
Proof.
  induction l1 as [|x l1 IH]; simpl; [reflexivity|].
  now destruct (f x).
Qed.

Lemma find_none_iff {A : Type} (f : A -> bool) (l : list A) :
  find f l = None <-> forall x, In x l -> f x = false.
Proof.
  split; [apply find_none|].
  intros H. destruct (find f l) as [x|] eqn:E; [|reflexivity].
  apply find_some in E. destruct E as [Hin Hx].
  rewrite (H x Hin) in Hx. discriminate.
Qed.

Lemma add_notification_tasks (st : Store) (o : Z) (name : string) (data : Payload)
    (now : Time) :
  task_table (add_notification st o name data now) = task_table st.
Proof. reflexivity. Qed.

Lemma launch_task_tasks (st : Store) (o : Z) (name description : string) (now : Time) :
  task_table (launch_task st o name description now) =
  task_table st ++ [mkTask (next_id (task_table st)) o name description false None].
Proof. reflexivity. Qed.

Lemma is_active_new (o : Z) (name description : string) (id : Z) :
  is_active o name (mkTask id o name description false None) = true.
Proof. unfold is_active. simpl. now rewrite Z.eqb_refl, String.eqb_refl. Qed.

(** A launch with no active task creates one, and it is then the task
    in progress. *)
Lemma export_posts_launches (st : Store) (u : Z) (now : Time) :
  get_task_in_progress st u "export_posts" = None ->
  let t := mkTask (next_id (task_table st)) u "export_posts" "Exporting posts..."
                  false None in
  task_table (fst (export_posts st u now)) = task_table st ++ [t] /\
  error_of (snd (export_posts st u now)) = None /\
  get_task_in_progress (fst (export_posts st u now)) u "export_posts" = Some t.
Proof.
  intros Hnone t. unfold export_posts. rewrite Hnone. cbn [fst snd].
  rewrite launch_task_tasks. repeat split.
  unfold get_task_in_progress in *. rewrite launch_task_tasks, find_app, Hnone.
  cbn [find]. fold t. unfold t at 1. now rewrite is_active_new.
Qed.

Lemma export_posts_rejects (st : Store) (u : Z) (now : Time) (t : Task) :
  get_task_in_progress st u "export_posts" = Some t ->
  fst (export_posts st u now) = st /\
  error_of (snd (export_posts st u now)) = Some TaskAlreadyActive.
Proof. intros H. unfold export_posts. rewrite H. split; reflexivity. Qed.

(** Completing the only active task of a type leaves none in
    progress. *)
Lemma complete_clears (st : Store) (tasks0 : list Task) (t : Task) (u : Z)
    (name result : string) (now : Time) :
  task_table st = tasks0 ++ [t] ->
  find (is_active u name) tasks0 = None ->
  get_task_in_progress (complete st t result now) u name = None.
Proof.
  intros Htab Hnone. unfold get_task_in_progress, complete.
  rewrite add_notification_tasks. cbn [task_table set_tasks].
  apply find_none_iff. intros x Hx. apply in_map_iff in Hx.
  destruct Hx as (t' & <- & Hin).
  destruct (task_id t' =? task_id t) eqn:E.
  - unfold is_active, mark_complete. cbn. now rewrite andb_false_r.
  - rewrite Htab in Hin. apply in_app_or in Hin. destruct Hin as [Hin|[<-|[]]].
    + now apply (proj1 (find_none_iff _ _) Hnone).
    + rewrite Z.eqb_refl in E. discriminate.
Qed.

(** C2: while a non-complete export task exists for a user, a launch is
    answered with the task-already-active response and the store is
    left as it was, so no task is created.  Starting with no active
    task: the first launch creates one active task, the second is
    rejected and changes nothing, and once the worker has completed the
    task a third launch succeeds and creates a new task. *)
Theorem second_launch_rejected_until_complete
    (st : Store) (u : Z) (result : string) (now1 now2 now3 now4 : Time) :
  (forall t, get_task_in_progress st u "export_posts" = Some t ->
     fst (export_posts st u now1) = st /\
     error_of (snd (export_posts st u now1)) = Some TaskAlreadyActive) /\
  (get_task_in_progress st u "export_posts" = None ->
   let r1 := export_posts st u now1 in
   let r2 := export_posts (fst r1) u now2 in
   exists t,
     get_task_in_progress (fst r1) u "export_posts" = Some t /\
     task_table (fst r1) = task_table st ++ [t] /\
     error_of (snd r1) = None /\
     error_of (snd r2) = Some TaskAlreadyActive /\
     fst r2 = fst r1 /\
     let st3 := complete (fst r2) t result now3 in
     let r4 := export_posts st3 u now4 in
     get_task_in_progress st3 u "export_posts" = None /\
     error_of (snd r4) = None /\
     exists t', task_table (fst r4) = task_table st3 ++ [t'] /\
                get_task_in_progress (fst r4) u "export_posts" = Some t').
Proof.
  split.
  - intros t Ht. now apply (export_posts_rejects st u now1 t).
  - intros Hnone r1 r2.
    destruct (export_posts_launches st u now1 Hnone) as (Htab & Herr & Hact).
    fold r1 in Htab, Herr, Hact.
    destruct (export_posts_rejects (fst r1) u now2 _ Hact) as (Hst & Herr2).
    fold r2 in Hst, Herr2.
    eexists. split; [exact Hact|].
    split; [exact Htab|]. split; [exact Herr|]. split; [exact Herr2|].
    split; [exact Hst|]. intros st3 r4.
    assert (Hclear : get_task_in_progress st3 u "export_posts" = None).
    { unfold st3. rewrite Hst. eapply complete_clears; [exact Htab | exact Hnone]. }
    destruct (export_posts_launches st3 u now4 Hclear) as (Htab4 & Herr4 & Hact4).
    split; [exact Hclear|]. split; [exact Herr4|].
    eexists. split; [exact Htab4 | exact Hact4].
Qed.

(** In the demo store alice has no export in progress. *)
Lemma second_launch_rejected_witness :
  error_of (snd (export_posts (fst (export_posts demo_store 1 40)) 1 41)) =
    Some TaskAlreadyActive.
Proof.
  destruct (proj2 (second_launch_rejected_until_complete demo_store 1 "done" 40 41 42 43)
                  eq_refl) as (t & _ & _ & _ & H & _).
  exact H.
Defined.

(** ** Messaging channel *)

Lemma get_user_update (st : Store) (uid k : Z) (f : User -> User) :
  (forall x, user_id (f x) = user_id x) ->
  get_user (update_user st uid f) k =
  if k =? uid then option_map f (get_user st k) else get_user st k.
Proof.
  intros Hid. unfold get_user, update_user. cbn [user_table set_users].
  induction (user_table st) as [|x l IH]; simpl.
  - now destruct (k =? uid).
  - destruct (user_id x =? uid) eqn:Ex.
    + rewrite Hid. apply Z.eqb_eq in Ex. rewrite Ex.
      destruct (uid =? k) eqn:Ek.
      * apply Z.eqb_eq in Ek. subst k. now rewrite Z.eqb_refl.
      * rewrite IH. reflexivity.
    + destruct (user_id x =? k) eqn:Ek; [|exact IH].
      apply Z.eqb_eq in Ek. subst k. now rewrite Ex.
Qed.

Lemma unread_count_app (st : Store) (user : User) (ms : list Message) :
  unread_message_count (set_messages st (message_table st ++ ms)) user =
  unread_message_count st user + Z.of_nat (List.length (filter (is_unread user) ms)).
Proof.
  unfold unread_message_count. cbn [message_table set_messages].
  rewrite filter_app, length_app. lia.
Qed.

(** C4: when the recipient exists, sending a message stores the
    message and publishes exactly one notification, named
    unread_message_count, for the recipient, whose payload is the
    recipient's unread count recomputed with the new message stored;
    and when the message is created at a clock reading later than the
    recipient's read watermark, the recipient's unread count rises by
    exactly one. *)
Theorem send_message_counts_and_notifies
    (st : Store) (sender : Z) (recipient body : string) (user : User) (now : Time) :
  find_user_by_username st recipient = Some user ->
  let r := send_message st sender recipient (Some body) now in
  error_of (snd r) = None /\
  find_user_by_username (fst r) recipient = Some user /\
  (exists msg,
     message_table (fst r) = message_table st ++ [msg] /\
     message_sender msg = sender /\ message_recipient msg = user_id user /\
     message_body msg = body /\ message_timestamp msg = now) /\
  (last_message_read_time user < now ->
   unread_message_count (fst r) user = unread_message_count st user + 1) /\
  (exists n,
     notification_table (fst r) = notification_table st ++ [n] /\
     notification_owner n = user_id user /\
     notification_name n = "unread_message_count"%string /\
     notification_data n = PCount (unread_message_count (fst r) user)).
Proof.
  intros Hfind r. unfold r, send_message. rewrite Hfind. cbn [fst snd].
  set (msg := mkMessage _ _ _ _ _).
  set (st1 := set_messages st (message_table st ++ [msg])).
  split; [reflexivity|]. split; [exact Hfind|].
  split; [exists msg; repeat split|].
  split.
  - intros Hlt.
    change (unread_message_count st1 user = unread_message_count st user + 1).
    unfold st1. rewrite unread_count_app. cbn [filter].
    assert (H : is_unread user msg = true).
    { unfold is_unread, msg. cbn. rewrite Z.eqb_refl. now apply Z.ltb_lt. }
    now rewrite H.
  - destruct (add_notification_above st1 (user_id user) "unread_message_count"
                (PCount (unread_message_count st1 user)) now)
      as (n & Htab & Ho & Hname & Hdata & _).
    exists n. repeat split; auto.
Qed.

(** bob sends alice a message at time 9, after her watermark 5. *)
Lemma send_message_witness :
  unread_message_count (fst (send_message demo_store 2 "alice" (Some "again"%string) 9))
                       alice =
  unread_message_count demo_store alice + 1.
Proof.
  refine (proj1 (proj2 (proj2 (proj2
    (send_message_counts_and_notifies demo_store 2 "alice" "again" alice 9 _)))) _).
  - reflexivity.
  - reflexivity.
Defined.

(** bob sends alice a message at time 5, the very reading of her
    watermark: the message is stored, but her unread count stays at 1
    and the notification carries 1. *)
Lemma send_message_same_tick_counterexample :
  find_user_by_username demo_store "alice" = Some alice /\
  unread_message_count demo_store alice = 1 /\
  unread_message_count
    (fst (send_message demo_store 2 "alice" (Some "again"%string) 5)) alice = 1 /\
  unread_message_count
    (fst (send_message demo_store 2 "alice" (Some "again"%string) 5)) alice <>
  unread_message_count demo_store alice + 1 /\
  map notification_data
      (skipn 1 (notification_table
                  (fst (send_message demo_store 2 "alice" (Some "again"%string) 5)))) =
  [PCount 1].
Proof.
  repeat split; try reflexivity. vm_compute. discriminate.
Qed.

(** C5: viewing the messages sets the user's read watermark to the
    current time and leaves the user's other fields alone; no stored
    message being later than the current time, the user's unread count
    is then zero; and one notification named unread_message_count with
    payload 0 is published whatever the unread count was before. *)
Theorem messages_resets_unread_and_notifies
    (POSTS_PER_PAGE : Z) (st : Store) (u : Z) (usr : User) (page : Z) (now : Time) :
  get_user st u = Some usr ->
  (forall m, In m (message_table st) -> message_recipient m = u ->
             message_timestamp m <= now) ->
  let r := messages POSTS_PER_PAGE st u page now in
  let usr' := set_last_message_read_time now usr in
  get_user (fst r) u = Some usr' /\
  last_message_read_time usr' = now /\
  unread_message_count (fst r) usr' = 0 /\
  message_table (fst r) = message_table st /\
  (exists n,
     notification_table (fst r) = notification_table st ++ [n] /\
     notification_owner n = u /\
     notification_name n = "unread_message_count"%string /\
     notification_data n = PCount 0).
Proof.
  intros Hget Hpast r usr'.
  assert (Hid : user_id usr = u).
  { unfold get_user in Hget. apply find_some in Hget. now apply Z.eqb_eq. }
  unfold r, messages. cbn [fst].
  set (st1 := update_user st u (set_last_message_read_time now)).
  destruct (add_notification_above st1 u "unread_message_count" (PCount 0) now)
    as (n & Htab & Ho & Hname & Hdata & _).
  split.
  { change (get_user st1 u = Some usr'). unfold st1.
    rewrite get_user_update by reflexivity. now rewrite Z.eqb_refl, Hget. }
  split; [reflexivity|]. split.
  { unfold unread_message_count.
    change (message_table (add_notification st1 u "unread_message_count" (PCount 0) now))
      with (message_table st).
    replace (filter (is_unread usr') (message_table st)) with (@nil Message);
      [reflexivity|].
    symmetry.
    induction (message_table st) as [|m l IH]; [reflexivity|]. simpl.
    assert (Hm : is_unread usr' m = false).
    { unfold is_unread, usr'. cbn. rewrite Hid.
      destruct (message_recipient m =? u) eqn:E; [|reflexivity].
      apply Z.eqb_eq in E. apply Z.ltb_ge, Hpast; [now left | exact E]. }
    rewrite Hm. apply IH. intros m' Hin. apply Hpast. now right. }
  split; [reflexivity|].
  exists n. repeat split; auto.
Qed.

(** alice views her messages at time 12; her one message is from
    time 7. *)
Lemma messages_resets_unread_witness :
  unread_message_count (fst (messages 25 demo_store 1 1 12))
                       (set_last_message_read_time 12 alice) = 0.
Proof.
  refine (proj1 (proj2 (proj2
    (messages_resets_unread_and_notifies 25 demo_store 1 alice 1 12 _ _)))).
  - reflexivity.
  - intros m [<-|[]] _. vm_compute. discriminate.
Defined.

(** ** Feed composer and post ledger *)

Lemma followed_feed_authors_In (st : Store) (u w : Z) :
  existsb (Z.eqb w) (followed_feed_authors st u) = true <->
  w = u \/ is_following st u w = true.
Proof.
  rewrite is_following_In, existsb_exists. unfold followed_feed_authors. split.
  - intros (x & Hin & Hx). apply Z.eqb_eq in Hx. subst x.
    destruct Hin as [->|Hin]; [now left|]. right.
    apply in_map_iff in Hin. destruct Hin as ([a b] & Hb & Hin).
    apply filter_In in Hin. destruct Hin as [Hin Ha].
    simpl in *. apply Z.eqb_eq in Ha. now subst.
  - intros [Hw|Hin]; exists w; (split; [|apply Z.eqb_refl]).
    + left. now symmetry.
    + right. apply in_map_iff. exists (u, w). split; [reflexivity|].
      apply filter_In. split; [exact Hin | apply Z.eqb_refl].
Qed.

Lemma In_firstn {A : Type} (n : nat) (l : list A) (x : A) :
  In x (firstn n l) -> In x l.
Proof.
  revert l. induction n as [|n IH]; intros [|y l]; simpl; try easy.
  intros [->|H]; [now left | right; now apply IH].
Qed.

Lemma In_skipn {A : Type} (n : nat) (l : list A) (x : A) :
  In x (skipn n l) -> In x l.
Proof.
  revert l. induction n as [|n IH]; intros [|y l]; simpl; try easy.
  intros H. right. now apply IH.
Qed.

Lemma StronglySorted_skipn {A : Type} (R : A -> A -> Prop) (n : nat) (l : list A) :
  StronglySorted R l -> StronglySorted R (skipn n l).
Proof.
  revert l. induction n as [|n IH]; intros l Hs; [exact Hs|].
  destruct Hs; [constructor | now apply IH].
Qed.

Lemma StronglySorted_firstn {A : Type} (R : A -> A -> Prop) (n : nat) (l : list A) :
  StronglySorted R l -> StronglySorted R (firstn n l).
Proof.
  revert l. induction n as [|n IH]; intros l Hs; [constructor|].
  destruct Hs as [|x l Hs Hall]; [constructor|]. simpl.
  constructor; [now apply IH|].
  apply Forall_forall. intros y Hy. apply In_firstn in Hy.
  now apply (proj1 (Forall_forall _ _) Hall).
Qed.

Lemma count_occ_filter_true {A : Type} (dec : forall x y : A, {x = y} + {x <> y})
    (f : A -> bool) (l : list A) (x : A) :
  f x = true -> count_occ dec (filter f l) x = count_occ dec l x.
Proof.
  intros Hx. induction l as [|y l IH]; [reflexivity|]. simpl.
  destruct (f y) eqn:E; simpl.
  - now rewrite IH.
  - rewrite IH. destruct (dec y x) as [->|]; [congruence | reflexivity].
Qed.

Lemma paginate_items {A : Type} (query : list A) (page per_page : Z) :
  1 <= page -> 1 <= per_page ->
  items (paginate query page per_page) =
  firstn (Z.to_nat per_page) (skipn (Z.to_nat ((page - 1) * per_page)) query).
Proof.
  intros Hp Hpp. unfold paginate.
  destruct (page <? 1) eqn:E1; [apply Z.ltb_lt in E1; lia|].
  destruct (per_page <? 1) eqn:E2; [apply Z.ltb_lt in E2; lia|].
  reflexivity.
Qed.

Lemma paginate_slice {A : Type} (query : list A) (page per_page : Z) :
  exists offset count,
    items (paginate query page per_page) = firstn count (skipn offset query).
Proof. unfold paginate. simpl. eauto. Qed.

(** C8: the home feed of a user holds exactly the stored posts whose
    author is the user or someone the user follows, each once per
    stored row and none by anyone else, ordered by creation timestamp
    descending with the higher identifier first among equal
    timestamps; a page of the home view is the slice of that feed at
    offset (page - 1) * pageSize of length pageSize, so it has the same
    membership bound and order, and the view leaves the store alone. *)
Theorem home_feed_membership_and_order
    (detect : string -> Detection) (POSTS_PER_PAGE : Z)
    (st : Store) (u : Z) (page : Z) (now : Time) :
  let feed := following_posts st u in
  let related p := post_author p = u \/ is_following st u (post_author p) = true in
  (forall p, In p feed <-> In p (post_table st) /\ related p) /\
  (forall p, related p ->
     count_occ post_eq_dec feed p = count_occ post_eq_dec (post_table st) p) /\
  StronglySorted newer_first feed /\
  (exists pg,
     index detect POSTS_PER_PAGE st u None page now = (st, RenderPosts pg) /\
     (1 <= page -> 1 <= POSTS_PER_PAGE ->
      items pg = firstn (Z.to_nat POSTS_PER_PAGE)
                        (skipn (Z.to_nat ((page - 1) * POSTS_PER_PAGE)) feed)) /\
     (page = 1 -> Z.of_nat (List.length feed) <= POSTS_PER_PAGE -> items pg = feed) /\
     (forall p, In p (items pg) -> In p (post_table st) /\ related p) /\
     StronglySorted newer_first (items pg)).
Proof.
  intros feed related.
  assert (Hmem : forall p, In p feed <-> In p (post_table st) /\ related p).
  { intros p. unfold feed, following_posts, related.
    now rewrite order_by_In, filter_In, followed_feed_authors_In. }
  assert (Hsorted : StronglySorted newer_first feed).
  { eapply StronglySorted_weaken;
      [|apply order_by_sorted; [apply feed_order_total | apply feed_order_trans]].
    intros p q. unfold feed_order, newer_first.
    rewrite orb_true_iff, andb_true_iff, Z.ltb_lt, Z.eqb_eq, Z.leb_le. tauto. }
  split; [exact Hmem|]. split; [|split; [exact Hsorted|]].
  - intros p Hp. unfold feed, following_posts.
    rewrite (proj1 (Permutation_count_occ post_eq_dec _ _) (order_by_perm _ _)).
    apply count_occ_filter_true. now apply followed_feed_authors_In.
  - eexists. split; [reflexivity|].
    destruct (paginate_slice feed page POSTS_PER_PAGE) as (offset & count & Hslice).
    split; [apply paginate_items|]. split; [|split].
    + intros -> Hlen. unfold paginate. cbn [items]. rewrite Z.mul_0_l.
      cbn [Z.to_nat skipn]. apply firstn_all2.
      destruct (POSTS_PER_PAGE <? 1) eqn:E; [apply Z.ltb_lt in E|]; lia.
    + intros p Hp. apply Hmem.
      change (In p (items (paginate feed page POSTS_PER_PAGE))) in Hp.
      rewrite Hslice in Hp. apply In_firstn, In_skipn in Hp. exact Hp.
    + change (StronglySorted newer_first (items (paginate feed page POSTS_PER_PAGE))).
      rewrite Hslice. now apply StronglySorted_firstn, StronglySorted_skipn.
Qed.

(** The scenario of the specification: alice follows bob and carol;
    dave is unrelated.  Page 1 of alice's home feed, ten to a page. *)
Example home_feed_demo :
  snd (index detect_nothing 10 demo_store 1 None 1 50) =
  RenderPosts (mkPage [mkPost 3 3 "salut" "fr" 20; mkPost 2 2 "hola" "es" 20;
                       mkPost 1 1 "hello" "en" 10] false false).
Proof. reflexivity. Qed.

Lemma home_feed_witness :
  In (mkPost 3 3 "salut" "fr" 20) (following_posts demo_store 1).
Proof.
  apply (proj1 (home_feed_membership_and_order detect_nothing 10 demo_store 1 1 50)).
  split; [simpl; tauto | right; reflexivity].
Defined.

(** C9: a validated post submission always stores the post, with the
    submitted body and the current user as author, and answers with the
    redirect to the index; when the language detector raises its
    exception the stored language tag is the empty string, otherwise it
    is the detected language.  The result is an ordinary response in
    both cases. *)
Theorem create_post_survives_detection_failure
    (detect : string -> Detection) (POSTS_PER_PAGE : Z)
    (st : Store) (author : Z) (body : string) (page : Z) (now : Time) :
  let r := index detect POSTS_PER_PAGE st author (Some body) page now in
  snd r = Redirect (Some FlashPostLive) EpIndex /\
  error_of (snd r) = None /\
  exists post,
    post_table (fst r) = post_table st ++ [post] /\
    post_author post = author /\
    post_body post = body /\
    post_timestamp post = now /\
    (detect body = LangDetectException -> post_language post = EmptyString) /\
    (forall l, detect body = Detected l -> post_language post = l).
Proof.
  intros r. unfold r, index. cbn [fst snd].
  split; [reflexivity|]. split; [reflexivity|].
  eexists. split; [reflexivity|]. cbn.
  repeat split.
  - now intros ->.
  - now intros l ->.
Qed.

Lemma create_post_witness :
  exists post,
    post_table (fst (index detect_nothing 10 demo_store 1 (Some "???"%string) 1 50)) =
      post_table demo_store ++ [post] /\
    post_language post = EmptyString.
Proof.
  destruct (create_post_survives_detection_failure
              detect_nothing 10 demo_store 1 "???" 1 50)
    as (_ & _ & post & Htab & _ & _ & _ & Hlang & _).
  exists post. split; [exact Htab | now apply Hlang].
Defined.

(** ** Request handling *)

Lemma update_user_last_seen_view (st : Store) (uid : Z) (f : User -> User) :
  (forall x, user_id (f x) = user_id x /\ last_seen (f x) = last_seen x) ->
  last_seen_view (update_user st uid f) = last_seen_view st.
Proof.
  intros Hf. unfold last_seen_view, update_user. cbn [user_table set_users].
  rewrite map_map. apply map_ext. intros x.
  destruct (user_id x =? uid); [|reflexivity].
  destruct (Hf x) as [-> ->]. reflexivity.
Qed.

Lemma add_notification_last_seen_view (st : Store) (o : Z) (name : string)
    (data : Payload) (now : Time) :
  last_seen_view (add_notification st o name data now) = last_seen_view st.
Proof. reflexivity. Qed.

Section Handling.

Variable detect : string -> Detection.
Variable translate : string -> string -> string -> string.
Variable post_search : Store -> string -> Z -> Z -> list Post * Z.
Variable POSTS_PER_PAGE : Z.

Local Abbreviation run_view := (view detect translate post_search POSTS_PER_PAGE).
Local Abbreviation handle := (handle_request detect translate post_search POSTS_PER_PAGE).

(** No view assigns [last_seen] or a primary key. *)
Lemma view_keeps_last_seen (st : Store) (uid : Z) (req : Request) (now : Time) :
  last_seen_view (fst (run_view st uid req now)) = last_seen_view st.
Proof.
  destruct req; cbn [view].
  - unfold index. now destruct submitted.
  - reflexivity.
  - unfold user. now destruct (find_user_by_username st name).
  - unfold user_popup. now destruct (find_user_by_username st name).
  - unfold edit_profile. destruct submitted as [[name about]|]; [|reflexivity].
    cbn [fst]. now apply update_user_last_seen_view.
  - unfold follow. destruct validate_on_submit; [|reflexivity].
    destruct (find_user_by_username st name) as [u|]; [|reflexivity].
    destruct (user_id u =? uid); [reflexivity|]. cbn [fst].
    unfold last_seen_view. now rewrite user_follow_users.
  - unfold unfollow. destruct validate_on_submit; [|reflexivity].
    destruct (find_user_by_username st name) as [u|]; [|reflexivity].
    destruct (user_id u =? uid); [reflexivity|]. cbn [fst].
    unfold last_seen_view. now rewrite user_unfollow_users.
  - reflexivity.
  - unfold search. destruct q; [|reflexivity]. now destruct (post_search _ _ _ _).
  - unfold send_message. destruct (find_user_by_username st recipient); [|reflexivity].
    now destruct submitted.
  - unfold messages. cbn [fst]. rewrite add_notification_last_seen_view.
    now apply update_user_last_seen_view.
  - unfold export_posts. now destruct (get_task_in_progress st uid _).
  - reflexivity.
  - unfold stamp. destruct upload as [| | |[|]]; reflexivity.
Qed.

Lemma last_seen_view_get (st st' : Store) (k : Z) (a : User) :
  last_seen_view st' = last_seen_view st ->
  get_user st k = Some a ->
  exists b, get_user st' k = Some b /\ last_seen b = last_seen a.
Proof.
  unfold last_seen_view, get_user.
  generalize (user_table st'). induction (user_table st) as [|x l IH];
    intros [|y l'] Hmap Hget; simpl in *; try discriminate.
  injection Hmap as Hid Hseen Hrest. rewrite Hid.
  destruct (user_id x =? k).
  - injection Hget as <-. now exists y.
  - now apply IH.
Qed.

(** C10: for an authenticated user found in the store, [before_request]
    sets the user's last_seen to the clock reading and leaves the
    user's other fields, the other users and the other tables as they
    were; the view then runs on that store; whatever the request, the
    user's last_seen still holds that reading afterwards, so a request
    made at a clock reading different from the stored last_seen never
    leaves the store as it was. *)
Theorem every_request_touches_last_seen
    (st : Store) (uid : Z) (usr : User) (req : Request) (now0 now : Time) :
  get_user st uid = Some usr ->
  let st0 := before_request st (Some uid) now0 in
  (get_user st0 uid = Some (mkUser (user_id usr) (username usr) (about_me usr)
                                   now0 (last_message_read_time usr)) /\
   (forall k, k <> uid -> get_user st0 k = get_user st k) /\
   followers_table st0 = followers_table st /\
   post_table st0 = post_table st /\
   message_table st0 = message_table st /\
   notification_table st0 = notification_table st /\
   task_table st0 = task_table st) /\
  handle st (Some uid) req now0 now = run_view st0 uid req now /\
  (exists usr', get_user (fst (handle st (Some uid) req now0 now)) uid = Some usr' /\
                last_seen usr' = now0) /\
  (last_seen usr <> now0 -> fst (handle st (Some uid) req now0 now) <> st).
Proof.
  intros Hget st0.
  assert (H0 : get_user st0 uid = Some (set_last_seen now0 usr)).
  { unfold st0, before_request. rewrite get_user_update by reflexivity.
    now rewrite Z.eqb_refl, Hget. }
  assert (Hrun : handle st (Some uid) req now0 now = run_view st0 uid req now)
    by reflexivity.
  assert (Hafter : exists usr',
             get_user (fst (handle st (Some uid) req now0 now)) uid = Some usr' /\
             last_seen usr' = now0).
  { rewrite Hrun.
    destruct (last_seen_view_get st0 (fst (run_view st0 uid req now)) uid _
                (view_keeps_last_seen st0 uid req now) H0) as (b & Hb & Hseen).
    exists b. split; [exact Hb | exact Hseen]. }
  split; [|split; [exact Hrun | split; [exact Hafter|]]].
  - split; [exact H0|]. split; [|repeat split].
    intros k Hk. unfold st0, before_request. rewrite get_user_update by reflexivity.
    destruct (k =? uid) eqn:E; [apply Z.eqb_eq in E; contradiction | reflexivity].
  - intros Hne Heq. destruct Hafter as (usr' & Hget' & Hseen).
    rewrite Heq, Hget in Hget'. injection Hget' as <-. contradiction.
Qed.

End Handling.

(** alice, last seen at 0, opens the explore page and polls her
    notifications when the clock reads 0: the store is returned as it
    was. *)
Lemma every_request_same_tick_counterexample :
  get_user demo_store 1 = Some alice /\
  fst (handle_request detect_nothing translate_id search_nothing 10
         demo_store (Some 1) (ReqExplore 1) 0 1) = demo_store /\
  fst (handle_request detect_nothing translate_id search_nothing 10
         demo_store (Some 1) (ReqNotifications 0) 0 1) = demo_store.
Proof. repeat split. Qed.

(** alice, last seen at 0, polls her notifications at time 60. *)
Lemma every_request_witness :
  exists usr',
    get_user (fst (handle_request detect_nothing translate_id search_nothing 10
                     demo_store (Some 1) (ReqNotifications 0) 60 61)) 1 = Some usr' /\
    last_seen usr' = 60.
Proof.
  refine (proj1 (proj2 (proj2
    (every_request_touches_last_seen detect_nothing translate_id search_nothing 10
       demo_store 1 alice (ReqNotifications 0) 60 61 _)))).
  reflexivity.
Defined.

(** * Further properties of the views *)

(** ** Upload file names *)

Lemma rsplit_dot_none (s : string) :
  rsplit_dot s = None <-> contains_dot s = false.
Proof.
  induction s as [|c s IH]; simpl; [tauto|].
  destruct (rsplit_dot s) as [[b e]|].
  - split; [discriminate|]. intros H. apply orb_false_iff in H.
    destruct H as [_ H]. apply IH in H. discriminate.
  - rewrite (proj1 IH eq_refl), orb_false_r.
    destruct (Ascii.eqb c "."); split; congruence.
Qed.

Lemma rsplit_dot_some (s before after : string) :
  rsplit_dot s = Some (before, after) <->
  s = (before ++ String "." after)%string /\ contains_dot after = false.
Proof.
  revert before. induction s as [|c s IH]; intros before; simpl.
  - split; [discriminate|]. intros [H _]. destruct before; discriminate.
  - destruct (rsplit_dot s) as [[b e]|] eqn:E.
    + split.
      * intros H. injection H as <- <-. destruct (proj1 (IH b) eq_refl) as [-> He].
        split; [reflexivity | exact He].
      * intros [H He]. destruct before as [|c' before']; simpl in H.
        -- injection H as -> ->. apply rsplit_dot_none in He. congruence.
        -- injection H as -> H.
           assert (Hs : Some (b, e) = Some (before', after))
             by (apply IH; split; assumption).
           injection Hs as -> ->. reflexivity.
    + split.
      * destruct (Ascii.eqb c ".") eqn:Ec; [|discriminate].
        intros H. injection H as <- <-. apply Ascii.eqb_eq in Ec. subst c.
        split; [reflexivity | now apply rsplit_dot_none].
      * intros [H He]. destruct before as [|c' before']; simpl in H.
        -- injection H as -> ->. reflexivity.
        -- injection H as -> H. exfalso.
           assert (Hs : None = Some (before', after))
             by (apply IH; split; assumption).
           discriminate.
Qed.

(** X1: a file name is allowed exactly when it has a dot and the text
    after its last dot, with the letters A-Z lowered, is one of pdf,
    txt, docx and jpg. *)
Theorem allowed_file_iff (filename : string) :
  allowed_file filename = true <->
  exists before extension,
    filename = (before ++ String "." extension)%string /\
    contains_dot extension = false /\
    In (lower extension) ALLOWED_EXTENSIONS.
Proof.
  unfold allowed_file. split.
  - intros H. apply andb_true_iff in H. destruct H as [_ H].
    destruct (rsplit_dot filename) as [[b e]|] eqn:E; [|discriminate].
    apply rsplit_dot_some in E. destruct E as [-> He].
    exists b, e. split; [reflexivity|]. split; [exact He|].
    apply existsb_exists in H. destruct H as (x & Hin & Hx).
    apply String.eqb_eq in Hx. now subst x.
  - intros (b & e & -> & He & Hin).
    rewrite (proj2 (rsplit_dot_some _ b e) (conj eq_refl He)).
    apply andb_true_iff. split.
    + destruct (contains_dot (b ++ String "." e)) eqn:E; [reflexivity|].
      apply rsplit_dot_none in E.
      rewrite (proj2 (rsplit_dot_some _ b e) (conj eq_refl He)) in E. discriminate.
    + apply existsb_exists. exists (lower e). split; [exact Hin | apply String.eqb_refl].
Qed.

Lemma lower_ascii_idem (c : ascii) : lower_ascii (lower_ascii c) = lower_ascii c.
Proof.
  destruct c as [[] [] [] [] [] [] [] []]; reflexivity.
Qed.

Lemma lower_ascii_dot (c : ascii) : Ascii.eqb (lower_ascii c) "." = Ascii.eqb c ".".
Proof.
  destruct c as [[] [] [] [] [] [] [] []]; reflexivity.
Qed.

Lemma lower_idem (s : string) : lower (lower s) = lower s.
Proof.
  induction s as [|c s IH]; simpl; [reflexivity|].
  now rewrite lower_ascii_idem, IH.
Qed.

Lemma contains_dot_lower (s : string) : contains_dot (lower s) = contains_dot s.
Proof.
  induction s as [|c s IH]; simpl; [reflexivity|].
  now rewrite lower_ascii_dot, IH.
Qed.

Lemma rsplit_dot_lower (s : string) :
  rsplit_dot (lower s) =
  option_map (fun p => (lower (fst p), lower (snd p))) (rsplit_dot s).
Proof.
  induction s as [|c s IH]; simpl; [reflexivity|].
  rewrite IH, lower_ascii_dot.
  destruct (rsplit_dot s) as [[b e]|]; simpl; [reflexivity|].
  now destruct (Ascii.eqb c ".").
Qed.

(** X2: the letter case of a file name does not matter: a name is
    allowed exactly when its lowered form is. *)
Theorem allowed_file_case_insensitive (filename : string) :
  allowed_file (lower filename) = allowed_file filename.
Proof.
  unfold allowed_file. rewrite contains_dot_lower, rsplit_dot_lower.
  destruct (rsplit_dot filename) as [[b e]|]; simpl; [|reflexivity].
  now rewrite lower_idem.
Qed.

(** ** Pages of an ordered query *)

Lemma paginate_length {A : Type} (query : list A) (page per_page : Z) :
  1 <= per_page ->
  Z.of_nat (List.length (items (paginate query page per_page))) <= per_page.
Proof.
  intros Hpp. unfold paginate. cbn [items].
  destruct (per_page <? 1) eqn:E; [apply Z.ltb_lt in E; lia|].
  pose proof (firstn_le_length (Z.to_nat per_page)
    (skipn (Z.to_nat (((if page <? 1 then 1 else page) - 1) * per_page)) query)).
  lia.
Qed.

Lemma paginate_first_page {A : Type} (query : list A) (page per_page : Z) :
  page <= 1 -> Z.of_nat (List.length query) <= per_page ->
  items (paginate query page per_page) = query.
Proof.
  intros Hp Hlen. unfold paginate. cbn [items].
  replace ((if page <? 1 then 1 else page) - 1) with 0
    by (destruct (page <? 1) eqn:E; [|apply Z.ltb_ge in E]; lia).
  rewrite Z.mul_0_l. cbn [Z.to_nat skipn]. apply firstn_all2.
  destruct (per_page <? 1) eqn:E; [apply Z.ltb_lt in E|]; lia.
Qed.

Section OrderedPages.

Context {A : Type} (leb : A -> A -> bool) (keep : A -> bool).
Hypothesis leb_total : forall x y, leb x y = true \/ leb y x = true.
Hypothesis leb_trans : forall x y z, leb x y = true -> leb y z = true -> leb x z = true.

(** A page of [SELECT ... WHERE keep ORDER BY leb]: its rows are rows
    of the table that pass the filter, and they are in order. *)
Lemma page_of_ordered_query (table : list A) (page per_page : Z) :
  let pg := paginate (order_by leb (filter keep table)) page per_page in
  (forall x, In x (items pg) -> In x table /\ keep x = true) /\
  StronglySorted (fun x y => leb x y = true) (items pg).
Proof.
  intros pg.
  destruct (paginate_slice (order_by leb (filter keep table)) page per_page)
    as (offset & count & Hslice).
  fold pg in Hslice. rewrite Hslice. split.
  - intros x Hx. apply In_firstn, In_skipn, order_by_In in Hx.
    now apply filter_In in Hx.
  - apply StronglySorted_firstn, StronglySorted_skipn.
    now apply order_by_sorted.
Qed.

End OrderedPages.

Lemma post_desc_total (p q : Post) :
  post_timestamp_desc p q = true \/ post_timestamp_desc q p = true.
Proof. unfold post_timestamp_desc. rewrite !Z.leb_le. lia. Qed.

Lemma post_desc_trans (p q r : Post) :
  post_timestamp_desc p q = true -> post_timestamp_desc q r = true ->
  post_timestamp_desc p r = true.
Proof. unfold post_timestamp_desc. rewrite !Z.leb_le. lia. Qed.

Lemma message_desc_total (m n : Message) :
  message_timestamp_desc m n = true \/ message_timestamp_desc n m = true.
Proof. unfold message_timestamp_desc. rewrite !Z.leb_le. lia. Qed.

Lemma message_desc_trans (m n k : Message) :
  message_timestamp_desc m n = true -> message_timestamp_desc n k = true ->
  message_timestamp_desc m k = true.
Proof. unfold message_timestamp_desc. rewrite !Z.leb_le. lia. Qed.

Lemma filter_true {A : Type} (l : list A) : filter (fun _ => true) l = l.
Proof. induction l as [|x l IH]; simpl; congruence. Qed.

(** ** Follow, unfollow and send_message: when the store changes *)

(** X3: the follow and unfollow views change the store only for a
    validated form that names an existing user other than the current
    user; an invalid form, an unknown name and one's own name all
    leave the store as it was. *)
Theorem follow_unfollow_change_only_when_valid
    (st : Store) (a : Z) (name : string) (v : bool) :
  fst (follow st a name v) <> st \/ fst (unfollow st a name v) <> st ->
  v = true /\
  exists u, find_user_by_username st name = Some u /\ user_id u <> a.
Proof.
  unfold follow, unfollow.
  destruct v; [|intros [H|H]; now elim H].
  destruct (find_user_by_username st name) as [u|]; [|intros [H|H]; now elim H].
  destruct (user_id u =? a) eqn:E; [intros [H|H]; now elim H|].
  intros _. split; [reflexivity|]. exists u. split; [reflexivity|].
  now apply Z.eqb_neq.
Qed.

(** dave follows bob in the demo store. *)
Lemma follow_unfollow_change_witness :
  exists u, find_user_by_username demo_store "bob" = Some u /\ user_id u <> 4.
Proof.
  refine (proj2 (follow_unfollow_change_only_when_valid demo_store 4 "bob" true _)).
  left. intros H. vm_compute in H. discriminate H.
Defined.

(** X4: the send_message view looks the recipient up first: for an
    unknown recipient it aborts with 404 and stores nothing, even when
    a valid message was submitted; for a known recipient it changes
    the store only when a message was submitted, and then touches only
    the message and notification tables. *)
Theorem send_message_guards
    (st : Store) (sender : Z) (recipient : string) (submitted : option string)
    (now : Time) :
  let r := send_message st sender recipient submitted now in
  (find_user_by_username st recipient = None -> r = (st, Abort404)) /\
  (submitted = None -> fst r = st) /\
  user_table (fst r) = user_table st /\
  followers_table (fst r) = followers_table st /\
  post_table (fst r) = post_table st /\
  task_table (fst r) = task_table st.
Proof.
  unfold send_message.
  destruct (find_user_by_username st recipient) as [u|];
    destruct submitted; cbn; repeat split; congruence.
Qed.

Lemma send_message_guards_witness :
  send_message demo_store 2 "nobody" (Some "hello"%string) 9 = (demo_store, Abort404).
Proof.
  refine (proj1 (send_message_guards demo_store 2 "nobody" (Some "hello"%string) 9) _).
  reflexivity.
Defined.

(** ** What the list views show *)

(** X5: a page of the messages view holds only stored messages
    addressed to the current user, newest first, and at most
    POSTS_PER_PAGE of them; when they all fit on the first page, the
    page holds every message the user has received. *)
Theorem messages_page_contents
    (POSTS_PER_PAGE : Z) (st : Store) (u : Z) (page : Z) (now : Time) :
  exists pg,
    snd (messages POSTS_PER_PAGE st u page now) = RenderMessages pg /\
    (forall m, In m (items pg) -> In m (message_table st) /\ message_recipient m = u) /\
    StronglySorted (fun m n => message_timestamp n <= message_timestamp m) (items pg) /\
    (1 <= POSTS_PER_PAGE -> Z.of_nat (List.length (items pg)) <= POSTS_PER_PAGE) /\
    (page <= 1 ->
     Z.of_nat (List.length (messages_received st u)) <= POSTS_PER_PAGE ->
     forall m, In m (message_table st) -> message_recipient m = u -> In m (items pg)).
Proof.
  eexists. split; [reflexivity|].
  change (messages_received
            (add_notification (update_user st u (set_last_message_read_time now)) u
               "unread_message_count" (PCount 0) now) u)
    with (messages_received st u).
  unfold messages_received.
  destruct (page_of_ordered_query message_timestamp_desc
              (fun m => message_recipient m =? u)
              message_desc_total message_desc_trans (message_table st)
              page POSTS_PER_PAGE) as [Hmem Hsorted].
  split; [|split; [|split]].
  - intros m Hm. destruct (Hmem m Hm) as [Hin Hr]. split; [exact Hin|].
    now apply Z.eqb_eq.
  - eapply StronglySorted_weaken; [|exact Hsorted].
    intros m n H. now apply Z.leb_le.
  - apply paginate_length.
  - intros Hp Hlen m Hin Hr. rewrite paginate_first_page; auto.
    + apply order_by_In, filter_In. split; [exact Hin | now apply Z.eqb_eq].
    + now rewrite (Permutation_length (order_by_perm _ _)).
Qed.

(** X6: the explore view leaves the store alone; a page holds only
    stored posts, newest first, at most POSTS_PER_PAGE of them, and
    when all posts fit on the first page it holds each of them. *)
Theorem explore_page_contents (POSTS_PER_PAGE : Z) (st : Store) (page : Z) :
  exists pg,
    explore POSTS_PER_PAGE st page = (st, RenderPosts pg) /\
    (forall p, In p (items pg) -> In p (post_table st)) /\
    StronglySorted (fun p q => post_timestamp q <= post_timestamp p) (items pg) /\
    (1 <= POSTS_PER_PAGE -> Z.of_nat (List.length (items pg)) <= POSTS_PER_PAGE) /\
    (page <= 1 -> Z.of_nat (List.length (post_table st)) <= POSTS_PER_PAGE ->
     Permutation (items pg) (post_table st)).
Proof.
  eexists. split; [reflexivity|].
  destruct (page_of_ordered_query post_timestamp_desc (fun _ => true)
              post_desc_total post_desc_trans (post_table st)
              page POSTS_PER_PAGE) as [Hmem Hsorted].
  rewrite filter_true in Hmem, Hsorted.
  split; [|split; [|split]].
  - intros p Hp. now apply Hmem.
  - eapply StronglySorted_weaken; [|exact Hsorted].
    intros p q H. now apply Z.leb_le.
  - apply paginate_length.
  - intros Hp Hlen. rewrite paginate_first_page; auto.
    + apply order_by_perm.
    + now rewrite (Permutation_length (order_by_perm _ _)).
Qed.


(** ** Profile editing and last_seen *)

(** X8: a validated profile edit sets the current user's username and
    about_me to the submitted values and keeps the user's id,
    last_seen and read watermark; every other user and every other
    table stay as they were. *)
Theorem edit_profile_updates_only_profile
    (st : Store) (uid : Z) (usr : User) (name about : string) :
  get_user st uid = Some usr ->
  let st' := fst (edit_profile st uid (Some (name, about))) in
  get_user st' uid =
    Some (mkUser (user_id usr) name about (last_seen usr) (last_message_read_time usr)) /\
  (forall k, k <> uid -> get_user st' k = get_user st k) /\
  followers_table st' = followers_table st /\
  post_table st' = post_table st /\
  message_table st' = message_table st /\
  notification_table st' = notification_table st /\
  task_table st' = task_table st.
Proof.
  intros Hget st'. unfold st', edit_profile. cbn [fst]. split; [|split].
  - rewrite get_user_update by reflexivity. now rewrite Z.eqb_refl, Hget.
  - intros k Hk. rewrite get_user_update by reflexivity.
    destruct (k =? uid) eqn:E; [apply Z.eqb_eq in E; contradiction | reflexivity].
  - repeat split.
Qed.

Lemma edit_profile_witness :
  get_user (fst (edit_profile demo_store 1 (Some ("alicia"%string, "hi"%string)))) 1 =
  Some (mkUser 1 "alicia" "hi" 0 5).
Proof.
  refine (proj1 (edit_profile_updates_only_profile demo_store 1 alice "alicia" "hi" _)).
  reflexivity.
Defined.

Lemma update_user_twice (st : Store) (uid : Z) (f g : User -> User) :
  (forall x, user_id (f x) = user_id x) ->
  update_user (update_user st uid f) uid g = update_user st uid (fun x => g (f x)).
Proof.
  intros Hid. unfold update_user, set_users. cbn [user_table followers_table
    post_table message_table notification_table task_table].
  f_equal. rewrite map_map. apply map_ext. intros x.
  destruct (user_id x =? uid) eqn:E; [|now rewrite E].
  now rewrite Hid, E.
Qed.

(** X9: of two successive runs of before_request for the same client,
    only the later clock reading remains: the result is the same as
    running it once with the later reading.  For an anonymous client
    it changes nothing. *)
Theorem before_request_last_reading_wins
    (st : Store) (current_user : option Z) (now1 now2 : Time) :
  before_request (before_request st current_user now1) current_user now2 =
    before_request st current_user now2 /\
  before_request st None now1 = st.
Proof.
  split; [|reflexivity].
  destruct current_user as [uid|]; [|reflexivity]. unfold before_request.
  now rewrite update_user_twice by reflexivity.
Qed.

(** ** What no request does *)

Lemma user_follow_frame (st : Store) (a b : Z) :
  post_table (user_follow st a b) = post_table st /\
  message_table (user_follow st a b) = message_table st /\
  notification_table (user_follow st a b) = notification_table st /\
  task_table (user_follow st a b) = task_table st.
Proof. unfold user_follow. destruct (is_following st a b); repeat split. Qed.

Lemma user_unfollow_frame (st : Store) (a b : Z) :
  post_table (user_unfollow st a b) = post_table st /\
  message_table (user_unfollow st a b) = message_table st /\
  notification_table (user_unfollow st a b) = notification_table st /\
  task_table (user_unfollow st a b) = task_table st.
Proof. unfold user_unfollow. destruct (is_following st a b); repeat split. Qed.

Lemma grows_by_one_refl {A : Type} (table : list A) : grows_by_one table table.
Proof. exists []. split; [now rewrite app_nil_r | simpl; lia]. Qed.

Lemma grows_by_one_snoc {A : Type} (table : list A) (x : A) :
  grows_by_one table (table ++ [x]).
Proof. exists [x]. split; [reflexivity | simpl; lia]. Qed.

Section Requests.

Variable detect : string -> Detection.
Variable translate : string -> string -> string -> string.
Variable post_search : Store -> string -> Z -> Z -> list Post * Z.
Variable POSTS_PER_PAGE : Z.

Local Abbreviation run_view := (view detect translate post_search POSTS_PER_PAGE).
Local Abbreviation handle := (handle_request detect translate post_search POSTS_PER_PAGE).

Lemma view_appends (st : Store) (uid : Z) (req : Request) (now : Time) :
  let st' := fst (run_view st uid req now) in
  grows_by_one (post_table st) (post_table st') /\
  grows_by_one (message_table st) (message_table st') /\
  grows_by_one (notification_table st) (notification_table st') /\
  grows_by_one (task_table st) (task_table st').
Proof.
  destruct req; cbn [view].
  - unfold index. destruct submitted; cbn;
      repeat split; first [apply grows_by_one_refl | apply grows_by_one_snoc].
  - cbn. repeat split; apply grows_by_one_refl.
  - unfold user. destruct (find_user_by_username st name); cbn;
      repeat split; apply grows_by_one_refl.
  - unfold user_popup. destruct (find_user_by_username st name); cbn;
      repeat split; apply grows_by_one_refl.
  - unfold edit_profile. destruct submitted as [[name about]|]; cbn;
      repeat split; apply grows_by_one_refl.
  - unfold follow. destruct validate_on_submit;
      [|cbn; repeat split; apply grows_by_one_refl].
    destruct (find_user_by_username st name) as [u|];
      [|cbn; repeat split; apply grows_by_one_refl].
    destruct (user_id u =? uid); [cbn; repeat split; apply grows_by_one_refl|].
    cbn [fst]. destruct (user_follow_frame st uid (user_id u)) as (-> & -> & -> & ->).
    repeat split; apply grows_by_one_refl.
  - unfold unfollow. destruct validate_on_submit;
      [|cbn; repeat split; apply grows_by_one_refl].
    destruct (find_user_by_username st name) as [u|];
      [|cbn; repeat split; apply grows_by_one_refl].
    destruct (user_id u =? uid); [cbn; repeat split; apply grows_by_one_refl|].
    cbn [fst]. destruct (user_unfollow_frame st uid (user_id u)) as (-> & -> & -> & ->).
    repeat split; apply grows_by_one_refl.
  - cbn. repeat split; apply grows_by_one_refl.
  - unfold search. destruct q; [destruct (post_search _ _ _ _)|]; cbn;
      repeat split; apply grows_by_one_refl.
  - unfold send_message. destruct (find_user_by_username st recipient);
      [destruct submitted|]; cbn [fst];
      repeat split; first [apply grows_by_one_refl | apply grows_by_one_snoc].
  - unfold messages. cbn [fst].
    repeat split; first [apply grows_by_one_refl | apply grows_by_one_snoc].
  - unfold export_posts. destruct (get_task_in_progress st uid _); cbn [fst];
      repeat split; first [apply grows_by_one_refl | apply grows_by_one_snoc].
  - cbn. repeat split; apply grows_by_one_refl.
  - unfold stamp. destruct upload as [| | |[|]]; cbn;
      repeat split; apply grows_by_one_refl.
Qed.

Lemma read_only_view (st : Store) (uid : Z) (req : Request) (now : Time) :
  read_only req = true -> fst (run_view st uid req now) = st.
Proof.
  destruct req; cbn [view read_only]; intros H; try discriminate; try reflexivity.
  - destruct submitted; [discriminate | reflexivity].
  - unfold user. now destruct (find_user_by_username st name).
  - unfold user_popup. now destruct (find_user_by_username st name).
  - destruct submitted; [discriminate | reflexivity].
  - destruct validate_on_submit; [discriminate | reflexivity].
  - destruct validate_on_submit; [discriminate | reflexivity].
  - unfold search. destruct q; [|reflexivity]. now destruct (post_search _ _ _ _).
  - destruct submitted; [discriminate|]. unfold send_message.
    now destruct (find_user_by_username st recipient).
  - unfold stamp. now destruct upload as [| | |[|]].
Qed.

Lemma anonymous_store_unchanged (st : Store) (req : Request) (now0 now : Time) :
  fst (handle st None req now0 now) = st.
Proof.
  unfold handle_request. cbn [before_request].
  destruct req; try reflexivity.
  unfold stamp. now destruct upload as [| | |[|]].
Qed.

(** X10: an anonymous client never changes the store: whatever the
    request and whatever the clock reads, the store afterwards is the
    store before. *)
Theorem anonymous_requests_change_nothing
    (st : Store) (req : Request) (now0 now : Time) :
  fst (handle st None req now0 now) = st.
Proof.
  unfold handle_request. cbn [before_request].
  destruct req; try reflexivity.
  unfold stamp. now destruct upload as [| | |[|]].
Qed.

(** X11: for an authenticated user, a request that only reads (a page
    view, or a form view with nothing valid submitted) changes nothing
    in the store but what before_request sets. *)
Theorem read_only_requests_only_touch_last_seen
    (st : Store) (uid : Z) (req : Request) (now0 now : Time) :
  read_only req = true ->
  fst (handle st (Some uid) req now0 now) = before_request st (Some uid) now0.
Proof. intros H. unfold handle_request. now apply read_only_view. Qed.

(** X12: no request creates or deletes a user or changes a primary
    key: the user table holds the same ids, in the same order,
    afterwards. *)
Theorem requests_keep_user_ids
    (st : Store) (current_user : option Z) (req : Request) (now0 now : Time) :
  map user_id (user_table (fst (handle st current_user req now0 now))) =
  map user_id (user_table st).
Proof.
  destruct current_user as [uid|].
  - unfold handle_request.
    pose proof (view_keeps_last_seen detect translate post_search POSTS_PER_PAGE
                  (before_request st (Some uid) now0) uid req now) as H.
    pose proof (update_user_last_seen_view st uid (set_last_seen now0)) as H'.
    apply (f_equal (map fst)) in H. unfold last_seen_view in H.
    rewrite !map_map in H. cbn [fst] in H.
    etransitivity; [exact H|].
    unfold before_request, update_user. cbn [user_table set_users].
    rewrite map_map. apply map_ext. intros x. now destruct (user_id x =? uid).
  - now rewrite anonymous_store_unchanged.
Qed.

(** X13: no request deletes or rewrites a stored post or message:
    after any request each of the two tables is the old table with at
    most one row appended. *)
Theorem requests_only_append
    (st : Store) (current_user : option Z) (req : Request) (now0 now : Time) :
  let st' := fst (handle st current_user req now0 now) in
  grows_by_one (post_table st) (post_table st') /\
  grows_by_one (message_table st) (message_table st').
Proof.
  destruct current_user as [uid|].
  - destruct (view_appends (before_request st (Some uid) now0) uid req now)
      as (Hp & Hm & _).
    split; [exact Hp | exact Hm].
  - cbv zeta. rewrite anonymous_store_unchanged.
    split; apply grows_by_one_refl.
Qed.

End Requests.

(** alice opens the explore page at time 60. *)
Lemma read_only_requests_witness :
  fst (handle_request detect_nothing translate_id search_nothing 10
         demo_store (Some 1) (ReqExplore 1) 60 61) =
  before_request demo_store (Some 1) 60.
Proof.
  refine (read_only_requests_only_touch_last_seen detect_nothing translate_id
            search_nothing 10 demo_store 1 (ReqExplore 1) 60 61 _).
  reflexivity.
Defined.

(** ** A new post on the explore page *)

Lemma order_by_snoc_first {A : Type} (leb : A -> A -> bool) (l : list A) (x : A) :
  (forall y, In y l -> leb y x = false) ->
  order_by leb (l ++ [x]) = x :: order_by leb l.
Proof.
  induction l as [|y l IH]; intros H; [reflexivity|].
  cbn [app order_by fold_right]. fold (order_by leb (l ++ [x])).
  rewrite IH by (intros z Hz; apply H; now right).
  cbn [insert_by]. rewrite (H y) by now left. reflexivity.
Qed.

(** X14: a post submitted at a clock reading later than every stored
    post's timestamp is the first item of the first explore page
    afterwards. *)
Theorem new_post_tops_explore
    (detect : string -> Detection) (POSTS_PER_PAGE : Z)
    (st : Store) (author : Z) (body : string) (page : Z) (now : Time) :
  (forall p, In p (post_table st) -> post_timestamp p < now) ->
  1 <= POSTS_PER_PAGE ->
  let st' := fst (index detect POSTS_PER_PAGE st author (Some body) page now) in
  exists pg new rest,
    explore POSTS_PER_PAGE st' 1 = (st', RenderPosts pg) /\
    items pg = new :: rest /\
    post_author new = author /\ post_body new = body /\ post_timestamp new = now.
Proof.
  intros Hnewer Hpp st'. eexists. eexists. eexists.
  split; [reflexivity|].
  unfold st', index. cbn [fst post_table set_posts].
  rewrite paginate_items by lia.
  rewrite order_by_snoc_first.
  - cbn [Z.sub Z.mul Z.to_nat skipn].
    replace (Z.to_nat POSTS_PER_PAGE) with (S (Z.to_nat (POSTS_PER_PAGE - 1))) by lia.
    cbn [firstn]. split; [reflexivity|]. repeat split.
  - intros p Hp. unfold post_timestamp_desc. cbn [post_timestamp].
    apply Z.leb_gt. now apply Hnewer.
Qed.

(** alice posts at time 50, after every post of the demo store. *)
Lemma new_post_tops_explore_witness :
  exists pg new rest,
    explore 10 (fst (index detect_nothing 10 demo_store 1 (Some "news"%string) 1 50)) 1 =
      (fst (index detect_nothing 10 demo_store 1 (Some "news"%string) 1 50),
       RenderPosts pg) /\
    items pg = new :: rest /\
    post_author new = 1 /\ post_body new = "news"%string /\ post_timestamp new = 50.
Proof.
  refine (new_post_tops_explore detect_nothing 10 demo_store 1 "news" 1 50 _ _).
  - intros p Hp. simpl in Hp.
    destruct Hp as [<-|[<-|[<-|[<-|[]]]]]; reflexivity.
  - discriminate.
Defined.

(** ** Polling with a later watermark *)

Section FilterOrdered.

Context {A : Type} (leb : A -> A -> bool) (keep : A -> bool).
Hypothesis leb_total : forall x y, leb x y = true \/ leb y x = true.
Hypothesis leb_trans : forall x y z, leb x y = true -> leb y z = true -> leb x z = true.

Lemma insert_by_first (x : A) (l : list A) :
  Forall (fun y => leb x y = true) l -> insert_by leb x l = x :: l.
Proof.
  destruct l as [|y l]; [reflexivity|]. simpl.
  intros H. inversion H as [|? ? Hy _]; subst. now rewrite Hy.
Qed.

Lemma filter_insert_by (x : A) (l : list A) :
  StronglySorted (fun a b => leb a b = true) l ->
  filter keep (insert_by leb x l) =
  if keep x then insert_by leb x (filter keep l) else filter keep l.
Proof.
  induction 1 as [|y l Hs IH Hall]; [simpl; now destruct (keep x)|].
  cbn [insert_by]. destruct (leb x y) eqn:E.
  - cbn [filter]. destruct (keep x); [|reflexivity].
    symmetry. apply insert_by_first.
    assert (Hx : Forall (fun z => leb x z = true) (y :: l)).
    { constructor; [exact E|]. eapply Forall_impl; [|exact Hall].
      intros z Hz. now apply (leb_trans x y z). }
    apply Forall_forall. intros z Hz.
    apply (proj1 (Forall_forall _ _) Hx).
    change (In z (filter keep (y :: l))) in Hz. now apply filter_In in Hz.
  - cbn [filter]. rewrite IH.
    destruct (keep x), (keep y); cbn [insert_by]; now rewrite ?E.
Qed.

Lemma order_by_filter (l : list A) :
  order_by leb (filter keep l) = filter keep (order_by leb l).
Proof.
  induction l as [|x l IH]; [reflexivity|].
  cbn [filter order_by fold_right]. fold (order_by leb l).
  rewrite filter_insert_by by now apply order_by_sorted.
  destruct (keep x); [|exact IH].
  cbn [order_by fold_right]. fold (order_by leb (filter keep l)). now rewrite IH.
Qed.

End FilterOrdered.

Lemma filter_filter_and {A : Type} (f g : A -> bool) (l : list A) :
  filter g (filter f l) = filter (fun x => f x && g x) l.
Proof.
  induction l as [|x l IH]; [reflexivity|]. simpl.
  destruct (f x); simpl; [destruct (g x)|]; now rewrite IH.
Qed.

Lemma filter_all {A : Type} (f : A -> bool) (l : list A) :
  Forall (fun x => f x = true) l -> filter f l = l.
Proof.
  induction 1 as [|x l Hx _ IH]; [reflexivity|]. simpl. now rewrite Hx, IH.
Qed.

Lemma ascending_filter_suffix (t : Time) (l : list Notification) :
  StronglySorted (fun n m => notification_timestamp_asc n m = true) l ->
  exists older,
    l = older ++ filter (fun n => t <? notification_timestamp n) l /\
    Forall (fun n => notification_timestamp n <= t) older.
Proof.
  induction 1 as [|n l Hs IH Hall].
  - exists []. split; [reflexivity | constructor].
  - destruct (t <? notification_timestamp n) eqn:E.
    + exists []. split; [|constructor]. cbn [app]. symmetry. apply filter_all.
      constructor; [exact E|]. eapply Forall_impl; [|exact Hall].
      intros m Hm. unfold notification_timestamp_asc in Hm.
      apply Z.leb_le in Hm. apply Z.ltb_lt in E. apply Z.ltb_lt. lia.
    + destruct IH as (older & Heq & Hold). exists (n :: older).
      cbn [filter]. rewrite E. split.
      * cbn [app]. now rewrite <- Heq.
      * constructor; [now apply Z.ltb_ge | exact Hold].
Qed.

(** X15: polling with a later watermark returns a suffix of what the
    earlier watermark returns: the later answer is the earlier one
    without its leading notifications, which are exactly those not
    above the later watermark. *)
Theorem later_poll_is_suffix (st : Store) (owner : Z) (t1 t2 : Time) :
  t1 <= t2 ->
  exists older,
    notifications_since st owner t1 = older ++ notifications_since st owner t2 /\
    Forall (fun n => notification_timestamp n <= t2) older.
Proof.
  intros Hle.
  assert (H2 : notifications_since st owner t2 =
               filter (fun n => t2 <? notification_timestamp n)
                      (notifications_since st owner t1)).
  { unfold notifications_since.
    rewrite <- (order_by_filter _ _ notification_asc_total notification_asc_trans).
    rewrite filter_filter_and. f_equal. apply filter_ext. intros n.
    destruct (owned_by owner n); [|reflexivity]. cbn [andb].
    destruct (t2 <? notification_timestamp n) eqn:E; [|now rewrite andb_false_r].
    apply Z.ltb_lt in E. rewrite andb_true_r. symmetry. apply Z.ltb_lt. lia. }
  rewrite H2. apply ascending_filter_suffix.
  unfold notifications_since.
  apply order_by_sorted; [apply notification_asc_total | apply notification_asc_trans].
Qed.

Lemma later_poll_witness :
  exists older,
    notifications_since demo_store 1 0 = older ++ notifications_since demo_store 1 7 /\
    Forall (fun n => notification_timestamp n <= 7) older.
Proof.
  refine (later_poll_is_suffix demo_store 1 0 7 _). discriminate.
Defined.

(** ** Next and previous page *)

Lemma paginate_has_next {A : Type} (query : list A) (page per_page : Z) :
  1 <= page -> 1 <= per_page ->
  (has_next (paginate query page per_page) = true <->
   items (paginate query (page + 1) per_page) <> []) /\
  (has_prev (paginate query page per_page) = true <-> 1 < page).
Proof.
  intros Hp Hpp. rewrite (paginate_items query (page + 1)) by lia.
  unfold paginate. cbn [has_next has_prev].
  destruct (page <? 1) eqn:E1; [apply Z.ltb_lt in E1; lia|].
  destruct (per_page <? 1) eqn:E2; [apply Z.ltb_lt in E2; lia|].
  rewrite !Z.ltb_lt. split; [|tauto].
  replace (page + 1 - 1) with page by lia.
  replace (Z.to_nat per_page) with (S (Z.to_nat (per_page - 1))) by lia.
  destruct (skipn (Z.to_nat (page * per_page)) query) as [|x rest] eqn:E.
  - apply skipn_all_iff in E. cbn [firstn]. split; [lia | congruence].
  - cbn [firstn]. split; [discriminate|]. intros _.
    assert (H : ~ (List.length query <= Z.to_nat (page * per_page))%nat).
    { intros H. apply skipn_all_iff in H. congruence. }
    lia.
Qed.

(** X16: on a page of the explore view, with a page number and a page
    size of at least 1, a next page is offered exactly when the next
    page has at least one post, and a previous page exactly when the
    page number is above 1. *)
Theorem explore_offers_next_page (POSTS_PER_PAGE : Z) (st : Store) (page : Z) :
  1 <= page -> 1 <= POSTS_PER_PAGE ->
  exists pg pg',
    snd (explore POSTS_PER_PAGE st page) = RenderPosts pg /\
    snd (explore POSTS_PER_PAGE st (page + 1)) = RenderPosts pg' /\
    (has_next pg = true <-> items pg' <> []) /\
    (has_prev pg = true <-> 1 < page).
Proof.
  intros Hp Hpp. eexists. eexists.
  split; [reflexivity|]. split; [reflexivity|].
  now apply paginate_has_next.
Qed.

(** Two posts to a page in the demo store, which has four. *)
Lemma explore_offers_next_page_witness :
  exists pg pg',
    snd (explore 2 demo_store 1) = RenderPosts pg /\
    snd (explore 2 demo_store (1 + 1)) = RenderPosts pg' /\
    (has_next pg = true <-> items pg' <> []) /\
    (has_prev pg = true <-> 1 < 1).
Proof.
  refine (explore_offers_next_page 2 demo_store 1 _ _); discriminate.
Defined.

(** ** Invariants kept by every request *)

Lemma filter_none {A : Type} (f : A -> bool) (l : list A) :
  (forall x, In x l -> f x = false) -> filter f l = [].
Proof.
  induction l as [|x l IH]; intros H; [reflexivity|]. cbn [filter].
  rewrite (H x) by now left. apply IH. intros y Hy. apply H. now right.
Qed.

Section Invariants.

Variable detect : string -> Detection.
Variable translate : string -> string -> string -> string.
Variable post_search : Store -> string -> Z -> Z -> list Post * Z.
Variable POSTS_PER_PAGE : Z.

Local Abbreviation run_view := (view detect translate post_search POSTS_PER_PAGE).
Local Abbreviation handle := (handle_request detect translate post_search POSTS_PER_PAGE).

(** What a view can do to the follow table. *)
Lemma view_followers_cases (st : Store) (uid : Z) (req : Request) (now : Time) :
  followers_table (fst (run_view st uid req now)) = followers_table st \/
  exists b, b <> uid /\
    (fst (run_view st uid req now) = user_follow st uid b \/
     fst (run_view st uid req now) = user_unfollow st uid b).
Proof.
  destruct req; cbn [view]; try (left; reflexivity).
  - left. unfold index. now destruct submitted.
  - left. unfold user. now destruct (find_user_by_username st name).
  - left. unfold user_popup. now destruct (find_user_by_username st name).
  - left. unfold edit_profile. now destruct submitted as [[? ?]|].
  - unfold follow. destruct validate_on_submit; [|now left].
    destruct (find_user_by_username st name) as [u|]; [|now left].
    destruct (user_id u =? uid) eqn:E; [now left|].
    right. exists (user_id u). split; [now apply Z.eqb_neq | now left].
  - unfold unfollow. destruct validate_on_submit; [|now left].
    destruct (find_user_by_username st name) as [u|]; [|now left].
    destruct (user_id u =? uid) eqn:E; [now left|].
    right. exists (user_id u). split; [now apply Z.eqb_neq | now right].
  - left. unfold search. destruct q; [|reflexivity]. now destruct (post_search _ _ _ _).
  - left. unfold send_message. destruct (find_user_by_username st recipient);
      [now destruct submitted | reflexivity].
  - left. unfold export_posts. now destruct (get_task_in_progress st uid _).
  - left. unfold stamp. now destruct upload as [| | |[|]].
Qed.

Lemma user_follow_no_self (st : Store) (a b : Z) :
  b <> a -> no_self_follow st -> no_self_follow (user_follow st a b).
Proof.
  intros Hne Hinv c Hin. unfold user_follow in Hin.
  destruct (is_following st a b); [now apply (Hinv c)|].
  cbn [followers_table set_followers] in Hin. apply in_app_or in Hin.
  destruct Hin as [Hin|[Heq|[]]]; [now apply (Hinv c)|].
  injection Heq as -> ->. contradiction.
Qed.

Lemma user_unfollow_no_self (st : Store) (a b : Z) :
  no_self_follow st -> no_self_follow (user_unfollow st a b).
Proof.
  intros Hinv c Hin. unfold user_unfollow in Hin.
  destruct (is_following st a b); [|now apply (Hinv c)].
  cbn [followers_table set_followers] in Hin. apply filter_In in Hin.
  now apply (Hinv c).
Qed.

(** X17: every request keeps the follow table well formed: if it has
    no duplicate edge and no edge from a user to themselves before the
    request, it has none afterwards. *)
Theorem requests_keep_follow_graph_well_formed
    (st : Store) (current_user : option Z) (req : Request) (now0 now : Time) :
  NoDup (followers_table st) -> no_self_follow st ->
  NoDup (followers_table (fst (handle st current_user req now0 now))) /\
  no_self_follow (fst (handle st current_user req now0 now)).
Proof.
  intros Hnd Hself. destruct current_user as [uid|].
  - unfold handle_request.
    set (st0 := before_request st (Some uid) now0).
    assert (Hnd0 : NoDup (followers_table st0)) by exact Hnd.
    assert (Hself0 : no_self_follow st0) by exact Hself.
    destruct (view_followers_cases st0 uid req now) as [Heq|(b & Hb & [Heq|Heq])].
    + split; [now rewrite Heq|]. intros c. unfold no_self_follow in *.
      rewrite Heq. apply Hself0.
    + rewrite Heq. split; [now apply user_follow_NoDup | now apply user_follow_no_self].
    + rewrite Heq. split; [now apply user_unfollow_NoDup | now apply user_unfollow_no_self].
  - rewrite (anonymous_store_unchanged detect translate post_search
               POSTS_PER_PAGE st req now0 now).
    now split.
Qed.

(** What a view can do to the task table. *)
Lemma view_tasks_cases (st : Store) (uid : Z) (req : Request) (now : Time) :
  task_table (fst (run_view st uid req now)) = task_table st \/
  (get_task_in_progress st uid "export_posts" = None /\
   exists t, task_table (fst (run_view st uid req now)) = task_table st ++ [t] /\
             task_owner t = uid /\ task_name t = "export_posts"%string).
Proof.
  destruct req; cbn [view]; try (left; reflexivity).
  - left. unfold index. now destruct submitted.
  - left. unfold user. now destruct (find_user_by_username st name).
  - left. unfold user_popup. now destruct (find_user_by_username st name).
  - left. unfold edit_profile. now destruct submitted as [[? ?]|].
  - left. unfold follow. destruct validate_on_submit; [|reflexivity].
    destruct (find_user_by_username st name) as [u|]; [|reflexivity].
    destruct (user_id u =? uid); [reflexivity|]. apply user_follow_frame.
  - left. unfold unfollow. destruct validate_on_submit; [|reflexivity].
    destruct (find_user_by_username st name) as [u|]; [|reflexivity].
    destruct (user_id u =? uid); [reflexivity|]. apply user_unfollow_frame.
  - left. unfold search. destruct q; [|reflexivity]. now destruct (post_search _ _ _ _).
  - left. unfold send_message. destruct (find_user_by_username st recipient);
      [now destruct submitted | reflexivity].
  - unfold export_posts. destruct (get_task_in_progress st uid _) eqn:E; [now left|].
    right. split; [reflexivity|]. eexists. split; [reflexivity|]. split; reflexivity.
  - left. unfold stamp. now destruct upload as [| | |[|]].
Qed.

(** X18: every request keeps the task table well formed: if no user
    has two non-complete tasks of one type before the request, none
    has afterwards. *)
Theorem requests_keep_one_active_task
    (st : Store) (current_user : option Z) (req : Request) (now0 now : Time) :
  one_active_task st ->
  one_active_task (fst (handle st current_user req now0 now)).
Proof.
  intros Hinv. destruct current_user as [uid|].
  - unfold handle_request.
    set (st0 := before_request st (Some uid) now0).
    assert (Hinv0 : one_active_task st0) by exact Hinv.
    destruct (view_tasks_cases st0 uid req now)
      as [Heq|(Hnone & t & Heq & Ho & Hn)];
      intros owner name; rewrite Heq; [apply Hinv0|].
    rewrite filter_app, length_app. cbn [filter].
    destruct (is_active owner name t) eqn:E.
    + unfold is_active in E. rewrite Ho, Hn in E.
      apply andb_true_iff in E. destruct E as [E _].
      apply andb_true_iff in E. destruct E as [E1 E2].
      apply Z.eqb_eq in E1. apply String.eqb_eq in E2. subst owner name.
      unfold get_task_in_progress in Hnone.
      replace (filter (is_active uid "export_posts") (task_table st0)) with (@nil Task);
        [simpl; lia|].
      symmetry. apply filter_none. now apply find_none_iff.
    + cbn [List.length]. rewrite Nat.add_0_r. apply Hinv0.
  - now rewrite (anonymous_store_unchanged detect translate post_search
                   POSTS_PER_PAGE st req now0 now).
Qed.

End Invariants.

(** dave follows bob in the demo store. *)
Lemma requests_keep_follow_graph_witness :
  NoDup (followers_table
           (fst (handle_request detect_nothing translate_id search_nothing 10
                   demo_store (Some 4) (ReqFollow "bob" true) 60 61))).
Proof.
  refine (proj1 (requests_keep_follow_graph_well_formed
                   detect_nothing translate_id search_nothing 10
                   demo_store (Some 4) (ReqFollow "bob" true) 60 61 _ _)).
  - repeat constructor; simpl; intuition discriminate.
  - intros a [H|[H|[]]]; injection H as H1 H2; lia.
Defined.

(** alice launches an export in the demo store, which has no task. *)
Lemma requests_keep_one_active_task_witness :
  one_active_task
    (fst (handle_request detect_nothing translate_id search_nothing 10
            demo_store (Some 1) ReqExportPosts 60 61)).
Proof.
  refine (requests_keep_one_active_task detect_nothing translate_id search_nothing 10
            demo_store (Some 1) ReqExportPosts 60 61 _).
  intros owner name. simpl. lia.
Defined.

(** ** How views compose *)

(** X19: a message sent at a clock reading later than every stored
    message's timestamp is the first item of the first page of the
    recipient's messages view afterwards. *)
Theorem sent_message_tops_inbox
    (POSTS_PER_PAGE : Z) (st : Store) (sender : Z) (recipient body : string)
    (usr : User) (now now' : Time) :
  find_user_by_username st recipient = Some usr ->
  (forall m, In m (message_table st) -> message_timestamp m < now) ->
  1 <= POSTS_PER_PAGE ->
  let st1 := fst (send_message st sender recipient (Some body) now) in
  exists pg m rest,
    snd (messages POSTS_PER_PAGE st1 (user_id usr) 1 now') = RenderMessages pg /\
    items pg = m :: rest /\
    message_sender m = sender /\ message_recipient m = user_id usr /\
    message_body m = body /\ message_timestamp m = now.
Proof.
  intros Hfind Hnewer Hpp st1. eexists. eexists. eexists.
  split; [reflexivity|].
  unfold st1, send_message. rewrite Hfind. cbn [fst].
  unfold messages_received.
  cbn [message_table add_notification update_user set_users set_notifications
       set_messages].
  rewrite filter_app. cbn [filter message_recipient]. rewrite Z.eqb_refl.
  rewrite paginate_items by lia.
  rewrite order_by_snoc_first.
  - cbn [Z.sub Z.mul Z.to_nat skipn].
    replace (Z.to_nat POSTS_PER_PAGE) with (S (Z.to_nat (POSTS_PER_PAGE - 1))) by lia.
    cbn [firstn]. split; [reflexivity|]. repeat split.
  - intros m Hm. apply filter_In in Hm. destruct Hm as [Hm _].
    unfold message_timestamp_desc. cbn [message_timestamp].
    apply Z.leb_gt. now apply Hnewer.
Qed.

(** bob writes to alice at time 9; her only message is from time 7. *)
Lemma sent_message_tops_inbox_witness :
  exists pg m rest,
    snd (messages 10
           (fst (send_message demo_store 2 "alice" (Some "again"%string) 9))
           (user_id alice) 1 12) = RenderMessages pg /\
    items pg = m :: rest /\
    message_sender m = 2 /\ message_recipient m = user_id alice /\
    message_body m = "again"%string /\ message_timestamp m = 9.
Proof.
  refine (sent_message_tops_inbox 10 demo_store 2 "alice" "again" alice 9 12 _ _ _).
  - reflexivity.
  - intros m [<-|[]]. reflexivity.
  - discriminate.
Defined.

Lemma is_active_other_owner (u v : Z) (name name' description : string) (id : Z) :
  u <> v -> is_active v name (mkTask id u name' description false None) = false.
Proof.
  intros Hne. unfold is_active. cbn [task_owner].
  destruct (u =? v) eqn:E; [apply Z.eqb_eq in E; contradiction | reflexivity].
Qed.

(** X20: an export request of one user never affects what another
    user's export request is answered: whether the second user's
    launch is accepted or rejected as already active is the same
    after the first user's request as before it. *)
Theorem export_posts_independent_users
    (st : Store) (u v : Z) (now1 now2 : Time) :
  u <> v ->
  get_task_in_progress (fst (export_posts st u now1)) v "export_posts" =
    get_task_in_progress st v "export_posts" /\
  error_of (snd (export_posts (fst (export_posts st u now1)) v now2)) =
    error_of (snd (export_posts st v now2)).
Proof.
  intros Hne.
  assert (H : get_task_in_progress (fst (export_posts st u now1)) v "export_posts" =
              get_task_in_progress st v "export_posts").
  { unfold export_posts at 1.
    destruct (get_task_in_progress st u "export_posts"); [reflexivity|].
    cbn [fst]. unfold get_task_in_progress. rewrite launch_task_tasks, find_app.
    destruct (find (is_active v "export_posts") (task_table st)); [reflexivity|].
    cbn [find]. now rewrite is_active_other_owner. }
  split; [exact H|].
  unfold export_posts at 1 3. rewrite H.
  now destruct (get_task_in_progress st v "export_posts").
Qed.

(** alice and bob both ask for an export in the demo store. *)
Lemma export_posts_independent_witness :
  error_of (snd (export_posts (fst (export_posts demo_store 1 40)) 2 41)) =
  error_of (snd (export_posts demo_store 2 41)).
Proof.
  refine (proj2 (export_posts_independent_users demo_store 1 2 40 41 _)).
  discriminate.
Defined.
